(** * The file backend of the memory store

    A shallow embedding of [src/backends/FileBackend.impl.ts]: the class
    [FileBackendImpl] with its constructor and its operations [initialize],
    [store], [retrieve], [update], [append], [remove], [list], [getStats],
    [loadMetadata], [saveMetadata] and [clear], over a model of the parts of
    Node it calls ([path], [fs/promises], [crypto], [JSON], [Map],
    [Array.prototype.sort]).

    Conventions.
    - Text is a [string] that holds the bytes of the generalized UTF-8 form
      of a JS string (see [Utf8]).  Writing with the ['utf-8'] encoding is
      [Utf8.encode]; a file holds UTF-8 text and reads as the text it
      holds.  [stats.size] is the number of bytes, [content.length] the
      number of UTF-16 code units ([js_length]).
    - JS numbers that hold counters, sizes and millisecond time stamps are
      integers of [Z].
    - Every [FileMetadata] object lives in a heap and is handled through its
      address, so that two references to one object stay one object.
    - An [async] method is the state transformer it is when awaited at once;
      [console.log] and [console.error] write nothing the program reads back
      and are left out.
    - The operations are written against the calls of [fs/promises]
      ([FsPromises]); the file system of the statements, unless another is
      named, is the tree of [Fs], where a call fails for what the tree
      holds only.
    - [memoryRoot] is an absolute path.  What [JSON.parse] makes of the
      text of the index file is a parameter of [loadMetadata]. *)

From Stdlib Require Import ZArith NArith Lia Ascii String List Sorting.Sorted Sorting.Permutation.
From stdpp Require Import base tactics option list strings.

Set Warnings "-register-all".

Open Scope string_scope.
Open Scope list_scope.
Open Scope Z_scope.

(** ** Association lists with the behaviour of a JS [Map]

    [Map.prototype.set] keeps the position of a key that is present and adds
    a new key last; iteration follows that order. *)

Module Assoc.

Fixpoint get {V : Type} (k : string) (m : list (string * V)) : option V :=
  match m with
  | [] => None
  | (k', v) :: m' => if String.eqb k k' then Some v else get k m'
  end.

Fixpoint set {V : Type} (k : string) (v : V) (m : list (string * V)) : list (string * V) :=
  match m with
  | [] => [(k, v)]
  | (k', v') :: m' => if String.eqb k k' then (k, v) :: m' else (k', v') :: set k v m'
  end.

Fixpoint delete {V : Type} (k : string) (m : list (string * V)) : list (string * V) :=
  match m with
  | [] => []
  | (k', v') :: m' => if String.eqb k k' then m' else (k', v') :: delete k m'
  end.

Definition values {V : Type} (m : list (string * V)) : list V := map snd m.

End Assoc.

(** ** [path]: POSIX paths

    An absolute path is the list of its segments below [/]. *)

Module Path.

Definition t := list string.

(** The segments of a string between its ['/'] separators. *)
Fixpoint segments (s : string) : list string :=
  match s with
  | EmptyString => [EmptyString]
  | String c s' =>
      if Ascii.eqb c "/" then EmptyString :: segments s'
      else match segments s' with
           | [] => [String c EmptyString]
           | seg :: rest => String c seg :: rest
           end
  end.

(** One step of [path.normalize]: empty segments and ["."] vanish, [".."]
    leaves the last directory entered (and stays at [/]). *)
Definition enter (acc : t) (seg : string) : t :=
  if String.eqb seg "" then acc
  else if String.eqb seg "." then acc
  else if String.eqb seg ".." then removelast acc
  else acc ++ [seg].

(** [path.join(base, ...args)] for an absolute, normalized [base]; a
    separator that ends the last argument is not kept. *)
Definition join (base : t) (args : list string) : t :=
  fold_left enter (concat (map segments args)) base.

(** [path.dirname]. *)
Definition dirname (p : t) : t := removelast p.

Fixpoint relative_segments (from to : t) : list string :=
  match from, to with
  | f :: from', x :: to' =>
      if String.eqb f x then relative_segments from' to'
      else map (fun _ => "..") from ++ to
  | _, _ => map (fun _ => "..") from ++ to
  end.

(** [path.relative(from, to)] for absolute, normalized paths. *)
Definition relative (from to : t) : string :=
  String.concat "/" (relative_segments from to).

End Path.

(** ** Text and its UTF-8 encoding

    A JS string is held as the bytes of its generalized UTF-8 form: a code
    point has the bytes UTF-8 gives it, a surrogate pair the four bytes of
    the code point it stands for, and a surrogate without a partner the
    three bytes [ED A0..BF 80..BF] of its own value. *)

Module Utf8.

(** The bytes [b], [c] continue the byte [ED] to a surrogate. *)
Definition surrogate_tail (b c : ascii) : bool :=
  let y := N_of_ascii b in
  let z := N_of_ascii c in
  ((160 <=? y) && (y <=? 191) && (128 <=? z) && (z <=? 191))%N.

(** The bytes [a], [b], [c] are a surrogate without a partner. *)
Definition lone_surrogate (a b c : ascii) : bool :=
  (N_of_ascii a =? 237)%N && surrogate_tail b c.

(** The bytes a string is written as with the ['utf-8'] encoding
    ([Buffer.from(s, 'utf-8')]): a surrogate without a partner becomes
    U+FFFD, [EF BF BD]. *)
Fixpoint encode (s : string) : string :=
  match s with
  | String a (String b (String c s3) as s1) =>
      if lone_surrogate a b c
      then String "239" (String "191" (String "189" (encode s3)))
      else String a (encode s1)
  | String a s1 => String a (encode s1)
  | EmptyString => EmptyString
  end.

(** No surrogate of [s] is without its partner. *)
Fixpoint well_formed (s : string) : bool :=
  match s with
  | String a (String b (String c _) as s1) => negb (lone_surrogate a b c) && well_formed s1
  | _ => true
  end.

End Utf8.

(** ** [fs/promises]: a tree of directories and files *)

Module Fs.

(** The codes of the errors of a file system.  The tree below gives the
    first four; the others are for the file systems that refuse a call for
    reasons a tree does not hold: a name too long, a permission, a disk that
    is full or read-only, a device that fails. *)
Inductive errno :=
| ENOENT | ENOTDIR | EISDIR | EEXIST
| ENAMETOOLONG | EACCES | EPERM | EROFS | ENOSPC | EMFILE | EIO.

(** A file holds bytes, which the program writes and reads as UTF-8 text:
    [File c] is the file that reads as the text [c]. *)
Inductive node :=
| File (content : string)
| Dir (entries : list (string * node)).

Definition result (A : Type) := (errno + A)%type.

(** The node a path leads to from the directory [n]. *)
Fixpoint lookup (p : Path.t) (n : node) : result node :=
  match p with
  | [] => inr n
  | s :: p' =>
      match n with
      | File _ => inl ENOTDIR
      | Dir es =>
          match Assoc.get s es with
          | None => inl ENOENT
          | Some child => lookup p' child
          end
      end
  end.

(** [fs.readFile(p, 'utf-8')]. *)
Definition readFile (p : Path.t) (n : node) : result string :=
  match lookup p n with
  | inl e => inl e
  | inr (File c) => inr c
  | inr (Dir _) => inl EISDIR
  end.

(** [fs.access(p)]: succeeds on whatever exists at [p]. *)
Definition access (p : Path.t) (n : node) : result unit :=
  match lookup p n with
  | inl e => inl e
  | inr _ => inr tt
  end.

(** [fs.stat(p)], of which the program reads [size] only. *)
Definition stat_size (p : Path.t) (n : node) : result Z :=
  match lookup p n with
  | inl e => inl e
  | inr (File c) => inr (Z.of_nat (String.length c))
  | inr (Dir _) => inr 4096
  end.

(** [fs.writeFile(p, c, 'utf-8')]: creates or replaces the file at [p] with
    the bytes that encode [c]; the directory that holds it has to exist. *)
Fixpoint writeFile (p : Path.t) (c : string) (n : node) : result node :=
  match p with
  | [] =>
      match n with
      | File _ => inr (File (Utf8.encode c))
      | Dir _ => inl EISDIR
      end
  | s :: p' =>
      match n with
      | File _ => inl ENOTDIR
      | Dir es =>
          match Assoc.get s es with
          | None =>
              match p' with
              | [] => inr (Dir (Assoc.set s (File (Utf8.encode c)) es))
              | _ :: _ => inl ENOENT
              end
          | Some child =>
              match writeFile p' c child with
              | inl e => inl e
              | inr child' => inr (Dir (Assoc.set s child' es))
              end
          end
      end
  end.

(** [fs.mkdir(p, { recursive: true })]: creates the missing directories
    along [p]; an existing directory is left as it is. *)
Fixpoint mkdir (p : Path.t) (n : node) : result node :=
  match p with
  | [] =>
      match n with
      | File _ => inl EEXIST
      | Dir _ => inr n
      end
  | s :: p' =>
      match n with
      | File _ => inl ENOTDIR
      | Dir es =>
          match mkdir p' (default (Dir []) (Assoc.get s es)) with
          | inl e => inl e
          | inr child' => inr (Dir (Assoc.set s child' es))
          end
      end
  end.

(** [fs.unlink(p)]: removes the file at [p]. *)
Fixpoint unlink (p : Path.t) (n : node) : result node :=
  match p with
  | [] => inl EISDIR
  | s :: p' =>
      match n with
      | File _ => inl ENOTDIR
      | Dir es =>
          match Assoc.get s es with
          | None => inl ENOENT
          | Some child =>
              match p' with
              | [] =>
                  match child with
                  | File _ => inr (Dir (Assoc.delete s es))
                  | Dir _ => inl EISDIR
                  end
              | _ :: _ =>
                  match unlink p' child with
                  | inl e => inl e
                  | inr child' => inr (Dir (Assoc.set s child' es))
                  end
              end
          end
      end
  end.

(** A [Dirent]: the name of an entry and the answer of [isFile()]. *)
Record Dirent := { name : string; isFile : bool }.

Definition dirent_of (e : string * node) : Dirent :=
  {| name := fst e; isFile := match snd e with File _ => true | Dir _ => false end |}.

(** The place of an entry among entries in the order of their names, which
    is that of their bytes. *)
Fixpoint insert_by_name (e : Dirent) (l : list Dirent) : list Dirent :=
  match l with
  | [] => [e]
  | e' :: l' =>
      if String.ltb (name e) (name e') then e :: l else e' :: insert_by_name e l'
  end.

Definition by_name (l : list Dirent) : list Dirent := fold_right insert_by_name [] l.

(** [fs.readdir(p, { withFileTypes: true })]: the entries of the directory,
    in the order of their names. *)
Definition readdir (p : Path.t) (n : node) : result (list Dirent) :=
  match lookup p n with
  | inl e => inl e
  | inr (File _) => inl ENOTDIR
  | inr (Dir es) => inr (by_name (map dirent_of es))
  end.

(** [fs.rm(p, { recursive: true, force: true })]: removes whatever is at
    [p], with all it holds; nothing at [p] is no error.  The directory [/]
    itself is not removed (reported here as [EISDIR]). *)
Fixpoint rm (p : Path.t) (n : node) : result node :=
  match p with
  | [] => inl EISDIR
  | s :: p' =>
      match n with
      | File _ => inl ENOTDIR
      | Dir es =>
          match Assoc.get s es with
          | None => inr n
          | Some child =>
              match p' with
              | [] => inr (Dir (Assoc.delete s es))
              | _ :: _ =>
                  match rm p' child with
                  | inl e => inl e
                  | inr child' => inr (Dir (Assoc.set s child' es))
                  end
              end
          end
      end
  end.

End Fs.

(** ** [crypto]: SHA-256 (FIPS 180-4) on 32-bit words *)

Module Sha256.

Local Open Scope N_scope.

Definition word (x : N) : N := N.land x 0xffffffff.

Definition add (x y : N) : N := word (x + y).

Definition rotr (k x : N) : N := word (N.lor (N.shiftr x k) (N.shiftl x (32 - k))).

Definition ch (x y z : N) : N := N.lxor (N.land x y) (N.land (N.lxor x 0xffffffff) z).

Definition maj (x y z : N) : N :=
  N.lxor (N.lxor (N.land x y) (N.land x z)) (N.land y z).

Definition Sigma0 (x : N) : N := N.lxor (N.lxor (rotr 2 x) (rotr 13 x)) (rotr 22 x).
Definition Sigma1 (x : N) : N := N.lxor (N.lxor (rotr 6 x) (rotr 11 x)) (rotr 25 x).
Definition sigma0 (x : N) : N := N.lxor (N.lxor (rotr 7 x) (rotr 18 x)) (N.shiftr x 3).
Definition sigma1 (x : N) : N := N.lxor (N.lxor (rotr 17 x) (rotr 19 x)) (N.shiftr x 10).

(** The first [count] primes from [n] on, by trial division. *)
Fixpoint primes_from (fuel count : nat) (n : N) : list N :=
  match fuel, count with
  | S fuel', S count' =>
      if forallb (fun d => negb (n mod d =? 0)) (map N.of_nat (seq 2 (N.to_nat n - 2)))
      then n :: primes_from fuel' count' (n + 1)
      else primes_from fuel' count (n + 1)
  | _, _ => []
  end.

Definition primes : list N := primes_from 400 64 2.

(** The integer cube root of [x] below [2^bits], one bit after the other. *)
Fixpoint cube_root (bits : nat) (x r : N) : N :=
  match bits with
  | O => r
  | S b =>
      let r' := r + N.shiftl 1 (N.of_nat b) in
      cube_root b x (if r' * r' * r' <=? x then r' else r)
  end.

(** The round constants: the first 32 bits of the fractional parts of the
    cube roots of the first 64 primes. *)
Definition K : list N :=
  Eval vm_compute in map (fun p => word (cube_root 36 (N.shiftl p 96) 0)) primes.

(** The initial hash value: the first 32 bits of the fractional parts of
    the square roots of the first 8 primes. *)
Definition H0 : list N :=
  Eval vm_compute in map (fun p => word (N.sqrt (N.shiftl p 64))) (firstn 8 primes).

Definition bytes_of (s : string) : list N := map N_of_ascii (list_ascii_of_string s).

(** The [count] low bytes of [x], most significant first. *)
Fixpoint big_endian (count : nat) (x : N) : list N :=
  match count with
  | O => []
  | S c => N.land (N.shiftr x (8 * N.of_nat c)) 0xff :: big_endian c x
  end.

(** The message, the byte 0x80, zeros up to 56 modulo 64, and the length of
    the message in bits on 8 bytes. *)
Definition pad (msg : list N) : list N :=
  let len := N.of_nat (List.length msg) in
  let zeros := N.to_nat ((119 - len mod 64) mod 64) in
  msg ++ 0x80 :: repeat 0 zeros ++ big_endian 8 (8 * len).

Fixpoint words_of (fuel : nat) (bytes : list N) : list N :=
  match fuel, bytes with
  | S fuel', b0 :: b1 :: b2 :: b3 :: rest =>
      (N.shiftl b0 24 + N.shiftl b1 16 + N.shiftl b2 8 + b3) :: words_of fuel' rest
  | _, _ => []
  end.

(** The message schedule, last word first: [extend k w] adds [k] words to the
    words [w] already there. *)
Fixpoint extend (k : nat) (w : list N) : list N :=
  match k with
  | O => w
  | S k' =>
      extend k'
        (add (add (sigma1 (nth 1 w 0)) (nth 6 w 0))
             (add (sigma0 (nth 14 w 0)) (nth 15 w 0)) :: w)
  end.

Definition schedule (block : list N) : list N := rev (extend 48 (rev block)).

Definition round (v : list N) (kw : N * N) : list N :=
  match v with
  | [a; b; c; d; e; f; g; h] =>
      let t1 := add (add (add h (Sigma1 e)) (add (ch e f g) (fst kw))) (snd kw) in
      let t2 := add (Sigma0 a) (maj a b c) in
      [add t1 t2; a; b; c; add d t1; e; f; g]
  | _ => v
  end.

Definition compress (h : list N) (block : list N) : list N :=
  map (fun xy => add (fst xy) (snd xy))
      (combine h (fold_left round (combine K (schedule block)) h)).

Fixpoint blocks (fuel : nat) (ws : list N) : list (list N) :=
  match fuel, ws with
  | S fuel', _ :: _ => firstn 16 ws :: blocks fuel' (skipn 16 ws)
  | _, _ => []
  end.

Definition digest (s : string) : list N :=
  let bytes := pad (bytes_of s) in
  let ws := words_of (List.length bytes) bytes in
  fold_left compress (blocks (List.length ws) ws) H0.

Definition hex_digit (x : N) : ascii :=
  if x <? 10 then ascii_of_N (48 + x) else ascii_of_N (87 + x).

Fixpoint hex_of (nibbles : nat) (x : N) : string :=
  match nibbles with
  | O => EmptyString
  | S k => String (hex_digit (N.land (N.shiftr x (4 * N.of_nat k)) 0xf)) (hex_of k x)
  end.

(** [crypto.createHash('sha256').update(s).digest('hex')]: the digest of
    the bytes that encode [s]. *)
Definition hex (s : string) : string :=
  String.concat "" (map (hex_of 8) (digest (Utf8.encode s))).

End Sha256.

(** ** Strings, numbers and dates of JS *)

Module Js.

Definition newline : string := String "010"%char EmptyString.
Definition dquote : string := String "034"%char EmptyString.

(** [s.startsWith(prefix)]. *)
Definition startsWith (prefix s : string) : bool := String.prefix prefix s.

(** [s.includes(sub)]. *)
Fixpoint includes (sub s : string) : bool :=
  match s with
  | EmptyString => String.prefix sub EmptyString
  | String _ s' => String.prefix sub s || includes sub s'
  end.

(** [s.length]: the UTF-16 code units of the text whose UTF-8 bytes are [s];
    a continuation byte adds none, the first byte of a four-byte sequence
    two. *)
Fixpoint js_length (s : string) : Z :=
  match s with
  | EmptyString => 0
  | String c s' =>
      let b := Z.of_N (N_of_ascii c) in
      (if b <? 128 then 1 else if b <? 192 then 0 else if b <? 240 then 1 else 2)
      + js_length s'
  end.

Fixpoint digits (fuel : nat) (n : N) (acc : string) : string :=
  match fuel with
  | O => acc
  | S fuel' =>
      let acc' := String (ascii_of_N (48 + n mod 10)) acc in
      if (n <? 10)%N then acc' else digits fuel' (n / 10) acc'
  end.

Definition decimal (n : N) : string := digits (S (N.to_nat (N.log2 n))) n EmptyString.

(** [String(x)] for an integer [x]. *)
Definition number_to_string (x : Z) : string :=
  if x <? 0 then "-" +:+ decimal (Z.to_N (- x)) else decimal (Z.to_N x).

Definition pad (width : nat) (x : Z) : string :=
  let d := decimal (Z.to_N x) in
  String.concat "" (repeat "0" (width - String.length d)) +:+ d.

(** [new Date(ms).toISOString()]: the proleptic Gregorian date of the day
    [ms / 86400000] after 1970-01-01, then the time of day. *)
Definition toISOString (ms : Z) : string :=
  let day := ms / 86400000 in
  let rest := ms mod 86400000 in
  let z := day + 719468 in
  let era := z / 146097 in
  let doe := z mod 146097 in
  let yoe := (doe - doe / 1460 + doe / 36524 - doe / 146096) / 365 in
  let doy := doe - (365 * yoe + yoe / 4 - yoe / 100) in
  let mp := (5 * doy + 2) / 153 in
  let d := doy - (153 * mp + 2) / 5 + 1 in
  let m := if mp <? 10 then mp + 3 else mp - 9 in
  let y := yoe + era * 400 + (if m <=? 2 then 1 else 0) in
  let year :=
    if (0 <=? y) && (y <=? 9999) then pad 4 y
    else (if y <? 0 then "-" else "+") +:+ pad 6 (Z.abs y) in
  year +:+ "-" +:+ pad 2 m +:+ "-" +:+ pad 2 d +:+ "T"
  +:+ pad 2 (rest / 3600000) +:+ ":" +:+ pad 2 (rest / 60000 mod 60) +:+ ":"
  +:+ pad 2 (rest / 1000 mod 60) +:+ "." +:+ pad 3 (rest mod 1000) +:+ "Z".

(** [Array.prototype.sort(cmp)]: a stable sort; [x] stays before [y] unless
    [cmp x y] is positive. *)
Fixpoint insert {A : Type} (cmp : A -> A -> Z) (x : A) (l : list A) : list A :=
  match l with
  | [] => [x]
  | y :: l' => if 0 <? cmp x y then y :: insert cmp x l' else x :: l
  end.

Definition sort {A : Type} (cmp : A -> A -> Z) (l : list A) : list A :=
  fold_right (insert cmp) [] l.

(** [Array.prototype.slice(0, n)]. *)
Definition slice0 {A : Type} (n : nat) (l : list A) : list A := firstn n l.

End Js.

(** ** [JSON.stringify(Object.fromEntries(map), null, 2)] *)

Module Json.

Definition hex4 (x : N) : string := Sha256.hex_of 4 x.

(** The escape of one byte inside a JSON string. *)
Definition escape_byte (c : ascii) : string :=
  let b := N_of_ascii c in
  if (b =? 34)%N then "\" +:+ Js.dquote
  else if (b =? 92)%N then "\\"
  else if (b =? 8)%N then "\b"
  else if (b =? 12)%N then "\f"
  else if (b =? 10)%N then "\n"
  else if (b =? 13)%N then "\r"
  else if (b =? 9)%N then "\t"
  else if (b <? 32)%N then "\u" +:+ hex4 b
  else String c EmptyString.

(** The UTF-16 code unit of the surrogate [ED b c]. *)
Definition surrogate_of (b c : ascii) : N :=
  (0xd000 + (N_of_ascii b - 128) * 64 + (N_of_ascii c - 128))%N.

(** The inside of a JSON string: a surrogate without a partner is written
    as its [\u] escape, every other byte as [escape_byte] has it. *)
Fixpoint escape (s : string) : string :=
  match s with
  | String a (String b (String c s3) as s1) =>
      if Utf8.lone_surrogate a b c then "\u" +:+ hex4 (surrogate_of b c) +:+ escape s3
      else escape_byte a +:+ escape s1
  | String a s1 => escape_byte a +:+ escape s1
  | EmptyString => EmptyString
  end.

Definition quote (s : string) : string :=
  Js.dquote +:+ escape s +:+ Js.dquote.

Fixpoint parse_digits (s : string) (acc : N) : option N :=
  match s with
  | EmptyString => Some acc
  | String c s' =>
      let b := N_of_ascii c in
      if ((48 <=? b) && (b <=? 57))%N then parse_digits s' (10 * acc + (b - 48))%N
      else None
  end.

(** The array index a property key stands for, if it is one: the canonical
    decimal writing of an integer below [2^32 - 1]. *)
Definition array_index (k : string) : option N :=
  match k with
  | EmptyString => None
  | _ =>
      match parse_digits k 0 with
      | Some n => if String.eqb (Js.decimal n) k && (n <? 4294967295)%N then Some n else None
      | None => None
      end
  end.

(** The own properties of [Object.fromEntries(entries)], in the order
    [JSON.stringify] visits them: array indices by value, then the other
    keys in the order the entries set them. *)
Definition fromEntries {V : Type} (entries : list (string * V)) : list (string * V) :=
  let obj := fold_left (fun o kv => Assoc.set (fst kv) (snd kv) o) entries [] in
  let indexed := omap (fun kv => match array_index (fst kv) with
                                 | Some n => Some (n, kv)
                                 | None => None
                                 end) obj in
  map snd (Js.sort (fun a b => Z.of_N (fst a) - Z.of_N (fst b)) indexed)
  ++ filter (fun kv => array_index (fst kv) = None) obj.

Definition member (indent key value : string) : string :=
  indent +:+ quote key +:+ ": " +:+ value.

Definition object (indent : string) (members : list string) : string :=
  match members with
  | [] => "{}"
  | _ => "{" +:+ Js.newline +:+ String.concat ("," +:+ Js.newline) members
         +:+ Js.newline +:+ indent +:+ "}"
  end.

End Json.

(** ** The backend object and its world *)

(** [interface FileMetadata]. *)
Record FileMetadata := {
  filePath : string;
  contentHash : string;
  lastUpdated : Z;
  accessCount : Z;
  size : Z
}.

(** The address of a [FileMetadata] object. *)
Definition ref := nat.

(** The fields of a [FileBackendImpl] ([memoryRoot], [metadata]; its
    [metadataFile] is derived), the heap its objects live in, the disk and
    the clock that [new Date()] reads. *)
Record state := {
  memoryRoot : Path.t;
  metadata : list (string * ref);
  heap : list FileMetadata;
  disk : Fs.node;
  clock : Z
}.

(** [this.metadataFile = path.join(memoryRoot, '.metadata.json')]. *)
Definition metadataFile (s : state) : Path.t := Path.join (memoryRoot s) [".metadata.json"].

Definition with_metadata (m : list (string * ref)) (s : state) : state :=
  {| memoryRoot := memoryRoot s; metadata := m; heap := heap s;
     disk := disk s; clock := clock s |}.

Definition with_heap (h : list FileMetadata) (s : state) : state :=
  {| memoryRoot := memoryRoot s; metadata := metadata s; heap := h;
     disk := disk s; clock := clock s |}.

Definition with_disk (d : Fs.node) (s : state) : state :=
  {| memoryRoot := memoryRoot s; metadata := metadata s; heap := heap s;
     disk := d; clock := clock s |}.

(** The environment lets [d] milliseconds pass. *)
Definition advance (d : Z) (s : state) : state :=
  {| memoryRoot := memoryRoot s; metadata := metadata s; heap := heap s;
     disk := disk s; clock := clock s + d |}.

(** What a [catch] receives: the error of a failed [fs] call, or an [Error]
    the program made itself. *)
Inductive exn :=
| ErrnoException (code : Fs.errno) (path : Path.t)
| Error (message : string).

(** [(error as NodeJS.ErrnoException).code === 'ENOENT']. *)
Definition is_ENOENT (e : exn) : bool :=
  match e with
  | ErrnoException Fs.ENOENT _ => true
  | _ => false
  end.

Inductive outcome (A : Type) :=
| Returned (a : A)
| Thrown (e : exn).
Arguments Returned {A} a.
Arguments Thrown {A} e.

(** A computation that returns or throws, and leaves a state either way. *)
Definition M (A : Type) := state -> outcome A * state.

Definition ret {A : Type} (a : A) : M A := fun s => (Returned a, s).

Definition throw {A : Type} (e : exn) : M A := fun s => (Thrown e, s).

Definition bind {A B : Type} (m : M A) (k : A -> M B) : M B :=
  fun s => match m s with
           | (Returned a, s') => k a s'
           | (Thrown e, s') => (Thrown e, s')
           end.

(** [try { body } catch (error) { handler }]. *)
Definition try_catch {A : Type} (body : M A) (handler : exn -> M A) : M A :=
  fun s => match body s with
           | (Returned a, s') => (Returned a, s')
           | (Thrown e, s') => handler e s'
           end.

Definition gets {A : Type} (f : state -> A) : M A := fun s => (Returned (f s), s).

Definition modify (f : state -> state) : M unit := fun s => (Returned tt, f s).

Notation "'let!' x ':=' m 'in' k" := (bind m (fun x => k))
  (at level 10, x name, m at level 100, k at level 200).
Notation "'do!' m 'in' k" := (bind m (fun _ => k))
  (at level 10, m at level 100, k at level 200).

(** An [fs] call that reads the disk. *)
Definition fs_get {A : Type} (call : Path.t -> Fs.node -> Fs.result A) (p : Path.t) : M A :=
  fun s => match call p (disk s) with
           | inl code => (Thrown (ErrnoException code p), s)
           | inr a => (Returned a, s)
           end.

(** An [fs] call that changes the disk. *)
Definition fs_put (call : Path.t -> Fs.node -> Fs.result Fs.node) (p : Path.t) : M unit :=
  fun s => match call p (disk s) with
           | inl code => (Thrown (ErrnoException code p), s)
           | inr d => (Returned tt, with_disk d s)
           end.

(** [new Date()], as its time value. *)
Definition new_Date : M Z := gets clock.

(** A new object. *)
Definition alloc (m : FileMetadata) : M ref :=
  fun s => (Returned (List.length (heap s)), with_heap (heap s ++ [m]) s).

(** [this.metadata.get(filename)]. *)
Definition Map_get (filename : string) : M (option ref) :=
  gets (fun s => Assoc.get filename (metadata s)).

(** [this.metadata.set(filename, r)]. *)
Definition Map_set (filename : string) (r : ref) : M unit :=
  modify (fun s => with_metadata (Assoc.set filename r (metadata s)) s).

(** [this.metadata.delete(filename)]. *)
Definition Map_delete (filename : string) : M unit :=
  modify (fun s => with_metadata (Assoc.delete filename (metadata s)) s).

(** The entries of [this.metadata] with the objects they refer to. *)
Definition index (s : state) : list (string * FileMetadata) :=
  omap (fun kr => match heap s !! snd kr with
                  | Some m => Some (fst kr, m)
                  | None => None
                  end) (metadata s).

Definition stringify_metadata (m : FileMetadata) : string :=
  Json.object "  "
    [ Json.member "    " "filePath" (Json.quote (filePath m));
      Json.member "    " "contentHash" (Json.quote (contentHash m));
      Json.member "    " "lastUpdated" (Json.quote (Js.toISOString (lastUpdated m)));
      Json.member "    " "accessCount" (Js.number_to_string (accessCount m));
      Json.member "    " "size" (Js.number_to_string (size m)) ].

(** [JSON.stringify(obj, null, 2)] for [obj = Object.fromEntries(entries)]. *)
Definition stringify_index (entries : list (string * FileMetadata)) : string :=
  Json.object ""
    (map (fun kv => Json.member "  " (fst kv) (stringify_metadata (snd kv)))
         (Json.fromEntries entries)).

(** ** The operations of [FileBackendImpl] *)

(** The calls of [fs/promises] that the backend makes, each with the disk
    it finds: the class is written against these calls, whatever file
    system answers them. *)
Class FsPromises := {
  fs_mkdir : Path.t -> Fs.node -> Fs.result Fs.node;
  fs_writeFile : Path.t -> string -> Fs.node -> Fs.result Fs.node;
  fs_stat_size : Path.t -> Fs.node -> Fs.result Z;
  fs_readFile : Path.t -> Fs.node -> Fs.result string;
  fs_access : Path.t -> Fs.node -> Fs.result unit;
  fs_unlink : Path.t -> Fs.node -> Fs.result Fs.node;
  fs_readdir : Path.t -> Fs.node -> Fs.result (list Fs.Dirent);
  fs_rm : Path.t -> Fs.node -> Fs.result Fs.node
}.

Section Backend.
Context {fs : FsPromises}.

(** A parameter [category: string = 'system']. *)
Definition or_system (category : option string) : string := default "system" category.

(** [saveMetadata()]. *)
Definition saveMetadata : M unit :=
  let! file := gets metadataFile in
  let! obj := gets index in
  fs_put (fun p => fs_writeFile p (stringify_index obj)) file.

(** The [try] block of [store]. *)
Definition store_try (filename content : string) (filePath : Path.t) : M ref :=
  do! fs_put fs_mkdir (Path.dirname filePath) in
  do! fs_put (fun p => fs_writeFile p content) filePath in
  let contentHash := Sha256.hex content in
  let! stats_size := fs_get fs_stat_size filePath in
  let! root := gets memoryRoot in
  let! now := new_Date in
  let! metadata := alloc {| filePath := Path.relative root filePath;
                            contentHash := contentHash;
                            lastUpdated := now;
                            accessCount := 0;
                            size := stats_size |} in
  do! Map_set filename metadata in
  do! saveMetadata in
  ret metadata.

(** [store(filename, content, category = 'system')]. *)
Definition store (filename content : string) (category : option string) : M ref :=
  let! root := gets memoryRoot in
  let filePath := Path.join root [or_system category; filename] in
  try_catch (store_try filename content filePath) (fun error => throw error).

(** What [retrieve] resolves to. *)
Record retrieved := { content : string; metadata_of : ref }.

(** [metadata.accessCount++; metadata.lastUpdated = new Date()] on the
    object at [r]. *)
Definition touch (r : ref) : M unit :=
  let! now := new_Date in
  modify (fun s =>
    match heap s !! r with
    | Some m =>
        with_heap (<[r := {| filePath := filePath m;
                             contentHash := contentHash m;
                             lastUpdated := now;
                             accessCount := accessCount m + 1;
                             size := size m |}]> (heap s)) s
    | None => s
    end).

(** The [try] block of [retrieve]. *)
Definition retrieve_try (filename : string) (filePath : Path.t) : M retrieved :=
  let! content := fs_get fs_readFile filePath in
  let! metadata := Map_get filename in
  match metadata with
  | Some r =>
      do! touch r in
      do! saveMetadata in
      ret {| content := content; metadata_of := r |}
  | None =>
      let! root := gets memoryRoot in
      let! now := new_Date in
      let! fresh := alloc {| filePath := Path.relative root filePath;
                             contentHash := Sha256.hex content;
                             lastUpdated := now;
                             accessCount := 1;
                             size := Js.js_length content |} in
      ret {| content := content; metadata_of := fresh |}
  end.

(** [retrieve(filename, category = 'system')]. *)
Definition retrieve (filename : string) (category : option string) : M retrieved :=
  let! root := gets memoryRoot in
  let filePath := Path.join root [or_system category; filename] in
  try_catch (retrieve_try filename filePath)
    (fun error =>
       if is_ENOENT error then throw (Error ("Memory file not found: " +:+ filename))
       else throw error).

(** The [try] block of [update]. *)
Definition update_try (filename content : string) (category : option string)
    (filePath : Path.t) : M ref :=
  do! fs_get fs_access filePath in
  store filename content category.

(** [update(filename, content, category = 'system')]. *)
Definition update (filename content : string) (category : option string) : M ref :=
  let! root := gets memoryRoot in
  let filePath := Path.join root [or_system category; filename] in
  try_catch (update_try filename content category filePath)
    (fun error =>
       if is_ENOENT error then throw (Error ("Cannot update non-existent file: " +:+ filename))
       else throw error).

(** [append(filename, additionalContent, category = 'system')]. *)
Definition append (filename additionalContent : string) (category : option string) : M ref :=
  let category := or_system category in
  let! r := retrieve filename (Some category) in
  let newContent := content r +:+ Js.newline +:+ additionalContent in
  update filename newContent (Some category).

(** The [try] block of [remove]. *)
Definition remove_try (filename : string) (filePath : Path.t) : M unit :=
  do! fs_put fs_unlink filePath in
  do! Map_delete filename in
  saveMetadata.

(** [remove(filename, category = 'system')]. *)
Definition remove (filename : string) (category : option string) : M unit :=
  let! root := gets memoryRoot in
  let filePath := Path.join root [or_system category; filename] in
  try_catch (remove_try filename filePath)
    (fun error =>
       if is_ENOENT error then throw (Error ("Cannot delete non-existent file: " +:+ filename))
       else throw error).

(** The field [f] of the object at [r]. *)
Definition field (f : FileMetadata -> Z) (h : list FileMetadata) (r : ref) : Z :=
  match h !! r with
  | Some m => f m
  | None => 0
  end.

(** The body of the loop of [list]: one directory entry. *)
Definition list_step (index : list (string * ref)) (files : list ref) (entry : Fs.Dirent)
    : list ref :=
  if Fs.isFile entry && negb (Js.startsWith "." (Fs.name entry)) then
    match Assoc.get (Fs.name entry) index with
    | Some r => files ++ [r]
    | None => files
    end
  else files.

(** The [try] block of [list]. *)
Definition list_try (searchPath : Path.t) : M (list ref) :=
  let! entries := fs_get fs_readdir searchPath in
  let! index := gets metadata in
  let files := fold_left (list_step index) entries [] in
  let! h := gets heap in
  ret (Js.sort (fun a b => field lastUpdated h b - field lastUpdated h a) files).

(** [list(category?)], named [list_] beside the lists of Rocq: an absent or
    empty [category] is falsy. *)
Definition list_ (category : option string) : M (list ref) :=
  let! root := gets memoryRoot in
  let searchPath :=
    match category with
    | Some c => if String.eqb c "" then root else Path.join root [c]
    | None => root
    end in
  try_catch (list_try searchPath) (fun error => ret []).

(** What [getStats] resolves to. *)
Record stats := {
  totalFiles : nat;
  totalSize : Z;
  categories : list string;
  mostAccessed : list ref
}.

(** [getStats()]. *)
Definition getStats : M stats :=
  let! allMetadata := gets (fun s => Assoc.values (metadata s)) in
  let! h := gets heap in
  ret {| totalFiles := List.length allMetadata;
         totalSize := fold_left (fun sum m => sum + field size h m) allMetadata 0;
         categories := ["system"; "personalities"; "projects"];
         mostAccessed :=
           Js.slice0 10
             (Js.sort (fun a b => field accessCount h b - field accessCount h a)
                allMetadata) |}.

End Backend.

(** A backend on a disk that holds the root and its three directories, as
    [initialize] leaves a root that was not there. *)
Definition fresh (root : Path.t) (now : Z) : state :=
  let mk (p : Path.t) (d : Fs.node) := match Fs.mkdir p d with inr d' => d' | inl _ => d end in
  {| memoryRoot := root;
     metadata := [];
     heap := [];
     disk := mk (Path.join root ["projects"])
               (mk (Path.join root ["personalities"])
                  (mk (Path.join root ["system"]) (mk root (Fs.Dir []))));
     clock := now |}.

(** ** Sessions: the constructor, [initialize], [loadMetadata], [clear] *)

(** [new FileBackendImpl(memoryRoot)] in a world with the heap [h], the
    disk [d] and the clock at [now]. *)
Definition construct (root : Path.t) (h : list FileMetadata) (d : Fs.node) (now : Z) : state :=
  {| memoryRoot := root; metadata := []; heap := h; disk := d; clock := now |}.

Section Sessions.
Context {fs : FsPromises}.

(** [JSON.parse(data)] and the entries [loadMetadata] makes of the object
    parsed, each value copied with its [lastUpdated] made a [Date], under
    the types the program declares; [None] when that throws. *)
Variable JSON_parse_index : string -> option (list (string * FileMetadata)).

(** [new Map(entries)], every value a new object. *)
Fixpoint new_Map (entries : list (string * FileMetadata)) : M unit :=
  match entries with
  | [] => ret tt
  | (key, value) :: rest =>
      let! r := alloc value in
      do! Map_set key r in
      new_Map rest
  end.

(** [loadMetadata()]. *)
Definition loadMetadata : M unit :=
  try_catch
    (let! file := gets metadataFile in
     let! data := fs_get fs_readFile file in
     match JSON_parse_index data with
     | Some entries =>
         do! modify (with_metadata []) in
         new_Map entries
     | None => throw (Error "SyntaxError")
     end)
    (fun error => modify (with_metadata [])).

(** [initialize()]. *)
Definition initialize : M unit :=
  try_catch
    (let! root := gets memoryRoot in
     do! fs_put fs_mkdir root in
     do! fs_put fs_mkdir (Path.join root ["system"]) in
     do! fs_put fs_mkdir (Path.join root ["personalities"]) in
     do! fs_put fs_mkdir (Path.join root ["projects"]) in
     loadMetadata)
    (fun error => throw error).

(** [clear()]. *)
Definition clear : M unit :=
  try_catch
    (let! root := gets memoryRoot in
     do! fs_put fs_rm root in
     initialize)
    (fun error => throw error).

End Sessions.

(** The file system of [Fs]: a tree, where a call fails for what the tree
    holds only. *)
#[export] Instance tree_fs : FsPromises := {|
  fs_mkdir := Fs.mkdir;
  fs_writeFile := Fs.writeFile;
  fs_stat_size := Fs.stat_size;
  fs_readFile := Fs.readFile;
  fs_access := Fs.access;
  fs_unlink := Fs.unlink;
  fs_readdir := Fs.readdir;
  fs_rm := Fs.rm
|}.


(** ** Vocabulary of the statements *)

(** The path [path.join(this.memoryRoot, category, filename)] that [store],
    [retrieve], [update] and [remove] work on. *)
Definition path_of (s : state) (filename : string) (category : option string) : Path.t :=
  Path.join (memoryRoot s) [or_system category; filename].

(** Nothing exists at [p]: looking it up reports [ENOENT]. *)
Definition absent (p : Path.t) (d : Fs.node) : Prop := Fs.lookup p d = inl Fs.ENOENT.

(** A directory exists at [p]. *)
Definition is_dir (p : Path.t) (d : Fs.node) : bool :=
  match Fs.lookup p d with
  | inr (Fs.Dir _) => true
  | _ => false
  end.

(** [Fs.writeFile] at [p] would succeed: a file is there, or nothing is and
    the directory to hold it exists. *)
Fixpoint writable (p : Path.t) (n : Fs.node) : bool :=
  match p, n with
  | [], Fs.File _ => true
  | [], Fs.Dir _ => false
  | _ :: _, Fs.File _ => false
  | s :: p', Fs.Dir es =>
      match Assoc.get s es with
      | None => match p' with [] => true | _ :: _ => false end
      | Some child => writable p' child
      end
  end.

(** [n] consecutive calls of [m], with what each returned. *)
Fixpoint times {A : Type} (n : nat) (m : M A) : M (list A) :=
  match n with
  | O => ret []
  | S n' =>
      let! a := m in
      let! rest := times n' m in
      ret (a :: rest)
  end.

(** The sum of a list of integers. *)
Definition sum (l : list Z) : Z := fold_right Z.add 0 l.

(** [a] may stand before [b] when a sequence descends by [key]. *)
Definition descending {A : Type} (key : A -> Z) (a b : A) : Prop := key b <= key a.

(** A name that is one segment of a path and enters a directory. *)
Definition safe_segment (name : string) : Prop :=
  Path.segments name = [name] /\ name <> "" /\ name <> "." /\ name <> "..".

(** The directory [list] reads for [category]. *)
Definition searchPath (s : state) (category : option string) : Path.t :=
  match category with
  | Some c => if String.eqb c "" then memoryRoot s else Path.join (memoryRoot s) [c]
  | None => memoryRoot s
  end.

(** A directory entry [list] looks up: a file whose name has no leading
    dot. *)
Definition visible (entry : Fs.Dirent) : bool :=
  Fs.isFile entry && negb (Js.startsWith "." (Fs.name entry)).

(** No directory on the way to [p] lists the next name of [p] twice. *)
Fixpoint unique_path (p : Path.t) (n : Fs.node) : bool :=
  match p, n with
  | s :: p', Fs.Dir es =>
      match Assoc.get s (Assoc.delete s es) with
      | Some _ => false
      | None =>
          match Assoc.get s es with
          | Some child => unique_path p' child
          | None => true
          end
      end
  | _, _ => true
  end.

(** No key of the index occurs twice. *)
Definition unique_keys {V : Type} (m : list (string * V)) : Prop := NoDup (map fst m).

(** Every object of the heap has a count of reads that is not negative. *)
Definition counts_ok (h : list FileMetadata) : Prop :=
  Forall (fun m => 0 <= accessCount m) h.


(** The three directories [initialize] makes in the root. *)
Definition category_dirs : list (string * Fs.node) :=
  [("system", Fs.Dir []); ("personalities", Fs.Dir []); ("projects", Fs.Dir [])].




(** The limits a disk sets to a path: every name of at most 255 bytes
    ([NAME_MAX]), none of them 0, and less than 4096 bytes ([PATH_MAX]) for
    the path with its separators.  The disk of [Fs] sets none, and takes
    every path: these limits keep a statement to the paths a disk takes. *)
Definition within_limits (p : Path.t) : Prop :=
  Forall (fun seg => (String.length seg <= 255)%nat /\
                     Js.includes (String "000" "") seg = false) p /\
  (list_sum (map (fun seg => S (String.length seg)) p) < 4096)%nat.

(** A byte of ASCII. *)
Definition ascii7 (a : ascii) : bool := (N_of_ascii a <? 128)%N.

(** A string of ASCII. *)
Fixpoint plain (s : string) : bool :=
  match s with
  | EmptyString => true
  | String a s' => ascii7 a && plain s'
  end.

(** A string that is empty or starts with a byte of ASCII. *)
Definition head_ascii (s : string) : Prop :=
  match s with
  | EmptyString => True
  | String a _ => ascii7 a = true
  end.

(** The two bytes a string starts with continue [ED] to a surrogate. *)
Definition pair_front (r : string) : bool :=
  match r with
  | String x (String y _) => Utf8.surrogate_tail x y
  | _ => false
  end.

(** A string that the encoding leaves as it is wherever it stands before
    such a string. *)
Definition tidy (u : string) : Prop :=
  head_ascii u /\
  forall t, head_ascii t -> Utf8.encode (u +:+ t) = u +:+ Utf8.encode t.

(** Case analysis on the results of [fs] calls. *)
Ltac fs_cases :=
  repeat match goal with
  | H : inl _ = inr _ |- _ => discriminate H
  | H : inr _ = inl _ |- _ => discriminate H
  | H : inr _ = inr _ |- _ => injection H as H; try subst
  | H : inl _ = inl _ |- _ => injection H as H; try subst
  | H : context [match ?x with _ => _ end] |- _ => destruct x eqn:?; simpl in H
  end.

(** * Properties *)

(** ** Text *)

Lemma string_ind3 (P : string -> Prop) :
  P "" ->
  (forall a, P (String a "")) ->
  (forall a b, P (String b "") -> P (String a (String b ""))) ->
  (forall a b c s, P s -> P (String b (String c s)) -> P (String a (String b (String c s)))) ->
  forall s, P s.
Proof.
  intros H0 H1 H2 H3.
  assert (forall n s, (String.length s <= n)%nat -> P s) as Hn.
  { induction n as [|n IH]; intros s Hlen.
    - destruct s; [done|simpl in Hlen; lia].
    - destruct s as [|a [|b [|c s]]]; simpl in Hlen.
      + done.
      + apply H1.
      + apply H2. apply H1.
      + apply H3; apply IH; simpl; lia. }
  intros s. by apply (Hn (String.length s)).
Qed.

Lemma encode_cons3 a b c s :
  Utf8.encode (String a (String b (String c s)))
  = if Utf8.lone_surrogate a b c
    then String "239" (String "191" (String "189" (Utf8.encode s)))
    else String a (Utf8.encode (String b (String c s))).
Proof. reflexivity. Qed.

Lemma well_formed_cons3 a b c s :
  Utf8.well_formed (String a (String b (String c s)))
  = negb (Utf8.lone_surrogate a b c) && Utf8.well_formed (String b (String c s)).
Proof. reflexivity. Qed.

Arguments Utf8.encode : simpl never.
Arguments Utf8.well_formed : simpl never.

Lemma encode_length s : String.length (Utf8.encode s) = String.length s.
Proof.
  induction s as [|a|a b IH|a b c s IH1 IH2] using string_ind3; try done.
  rewrite encode_cons3. destruct (Utf8.lone_surrogate a b c).
  - simpl. by rewrite IH1.
  - change (String.length (String a ?x)) with (S (String.length x)). by rewrite IH2.
Qed.

Lemma encode_well_formed s : Utf8.well_formed s = true -> Utf8.encode s = s.
Proof.
  induction s as [|a|a b IH|a b c s IH1 IH2] using string_ind3; try done.
  rewrite encode_cons3, well_formed_cons3. intros H. apply andb_prop in H as [Hl Hw].
  apply negb_true_iff in Hl. rewrite Hl. by rewrite IH2.
Qed.

Lemma lone_second a b c : ascii7 b = true -> Utf8.lone_surrogate a b c = false.
Proof.
  unfold ascii7, Utf8.lone_surrogate, Utf8.surrogate_tail. intros H. apply N.ltb_lt in H.
  destruct (N.leb_spec 160 (N_of_ascii b)); [lia|]. by rewrite andb_false_r.
Qed.

Lemma lone_third a b c : ascii7 c = true -> Utf8.lone_surrogate a b c = false.
Proof.
  unfold ascii7, Utf8.lone_surrogate, Utf8.surrogate_tail. intros H. apply N.ltb_lt in H.
  destruct (N.leb_spec 128 (N_of_ascii c)); [lia|]. by rewrite !andb_false_r.
Qed.

Lemma lone_first a b c : (N_of_ascii a =? 237)%N = false -> Utf8.lone_surrogate a b c = false.
Proof. unfold Utf8.lone_surrogate. by intros ->. Qed.

(** Encoding goes through a concatenation whose right part starts with a
    byte of ASCII. *)
Lemma encode_app s : forall t,
  head_ascii t -> Utf8.encode (s +:+ t) = Utf8.encode s +:+ Utf8.encode t.
Proof.
  induction s as [|a|a b IH|a b c s IH1 IH2] using string_ind3; intros t Ht.
  - done.
  - destruct t as [|x [|y t]]; try done. simpl in Ht.
    change (String a "" +:+ String x (String y t)) with (String a (String x (String y t))).
    rewrite encode_cons3, (lone_second _ _ _ Ht). done.
  - specialize (IH t Ht). destruct t as [|x t]; [done|]. simpl in Ht.
    change (String a (String b "") +:+ String x t) with (String a (String b (String x t))).
    rewrite encode_cons3, (lone_third _ _ _ Ht).
    change (String b (String x t)) with (String b "" +:+ String x t). by rewrite IH.
  - change (String a (String b (String c s)) +:+ t)
      with (String a (String b (String c (s +:+ t)))).
    rewrite !encode_cons3. destruct (Utf8.lone_surrogate a b c).
    + by rewrite IH1.
    + change (String b (String c (s +:+ t))) with (String b (String c s) +:+ t).
      by rewrite IH2.
Qed.

Lemma encode_cons_other a r :
  (N_of_ascii a =? 237)%N = false -> Utf8.encode (String a r) = String a (Utf8.encode r).
Proof.
  intros Ha. destruct r as [|b [|c r]]; try done.
  by rewrite encode_cons3, (lone_first _ _ _ Ha).
Qed.

(** Two texts without a lone surrogate, with a newline between them, are
    written as they are. *)
Lemma encode_lines (old extra : string) :
  Utf8.well_formed old = true -> Utf8.well_formed extra = true ->
  Utf8.encode (old +:+ Js.newline +:+ extra) = old +:+ Js.newline +:+ extra.
Proof.
  intros Hold Hextra. rewrite encode_app by done.
  change (Js.newline +:+ extra) with (String "010" extra).
  rewrite encode_cons_other by done.
  by rewrite (encode_well_formed _ Hold), (encode_well_formed _ Hextra).
Qed.

Lemma string_app_cons a (u t : string) : String a u +:+ t = String a (u +:+ t).
Proof. reflexivity. Qed.

Lemma plain_head u : plain u = true -> head_ascii u.
Proof. destruct u as [|a u]; simpl; [done|]. by intros [H _]%andb_prop. Qed.

Lemma ascii7_not_237 a : ascii7 a = true -> (N_of_ascii a =? 237)%N = false.
Proof. unfold ascii7. intros H%N.ltb_lt. apply N.eqb_neq. lia. Qed.

(** The encoding leaves a string of ASCII as it is, whatever follows. *)
Lemma encode_plain_app u t : plain u = true -> Utf8.encode (u +:+ t) = u +:+ Utf8.encode t.
Proof.
  induction u as [|a u IH]; simpl; [done|]. intros [Ha Hu]%andb_prop.
  rewrite !string_app_cons, encode_cons_other by (by apply ascii7_not_237). by rewrite IH.
Qed.

Lemma plain_app u v : plain u = true -> plain v = true -> plain (u +:+ v) = true.
Proof.
  induction u as [|a u IH]; simpl; [done|]. intros [Ha Hu]%andb_prop Hv.
  rewrite ?string_app_cons. simpl. by rewrite Ha, IH.
Qed.

Lemma tidy_plain u : plain u = true -> tidy u.
Proof. intros H. split; [by apply plain_head|]. intros t _. by apply encode_plain_app. Qed.

Lemma head_ascii_app u v : head_ascii u -> head_ascii v -> head_ascii (u +:+ v).
Proof. by destruct u. Qed.

Lemma string_app_assoc (u v w : string) : (u +:+ v) +:+ w = u +:+ (v +:+ w).
Proof. induction u as [|a u IH]; [done|]. by rewrite !string_app_cons, IH. Qed.

Lemma string_app_nil_r (u : string) : u +:+ "" = u.
Proof. induction u as [|a u IH]; [done|]. by rewrite string_app_cons, IH. Qed.

Lemma tidy_app u v : tidy u -> tidy v -> tidy (u +:+ v).
Proof.
  intros [Hu1 Hu2] [Hv1 Hv2]. split; [by apply head_ascii_app|].
  intros t Ht. rewrite string_app_assoc, Hu2 by (by apply head_ascii_app).
  by rewrite Hv2, string_app_assoc by done.
Qed.

Lemma tidy_encode u : tidy u -> Utf8.encode u = u.
Proof.
  intros [_ H]. specialize (H "" I). change (Utf8.encode "") with "" in H.
  by rewrite !string_app_nil_r in H.
Qed.

Lemma tidy_concat sep l : tidy sep -> Forall tidy l -> tidy (String.concat sep l).
Proof.
  intros Hsep. induction 1 as [|u l Hu Hl IH]; simpl; [by apply tidy_plain|].
  destruct l as [|v l]; [done|]. apply tidy_app; [done|]. by apply tidy_app.
Qed.

(** Digits. *)
Lemma ascii7_of_N n : (n < 128)%N -> ascii7 (ascii_of_N n) = true.
Proof.
  intros H. unfold ascii7. rewrite N_ascii_embedding by lia. by apply N.ltb_lt.
Qed.

Lemma plain_digits fuel : forall n acc, plain acc = true -> plain (Js.digits fuel n acc) = true.
Proof.
  induction fuel as [|fuel IH]; intros n acc Hacc; simpl; [done|].
  assert (plain (String (ascii_of_N (48 + n mod 10)) acc) = true) as H.
  { simpl. rewrite Hacc, ascii7_of_N; [done|].
    pose proof (N.mod_lt n 10). lia. }
  destruct (n <? 10)%N; [done|]. by apply IH.
Qed.

Lemma plain_number x : plain (Js.number_to_string x) = true.
Proof.
  unfold Js.number_to_string, Js.decimal.
  destruct (x <? 0); [|by apply plain_digits].
  apply (plain_app "-"); [done|]. by apply plain_digits.
Qed.

Lemma hex_digit_plain x : (x < 16)%N -> ascii7 (Sha256.hex_digit x) = true.
Proof.
  intros H. unfold Sha256.hex_digit. destruct (x <? 10)%N; apply ascii7_of_N; lia.
Qed.

Lemma plain_hex_of k x : plain (Sha256.hex_of k x) = true.
Proof.
  induction k as [|k IH]; simpl; [done|]. rewrite IH, hex_digit_plain; [done|].
  change 15%N with (N.ones 4). rewrite N.land_ones.
  apply N.mod_lt. done.
Qed.

Lemma escape_byte_cases a :
  (exists x r, Json.escape_byte a = String x r /\ plain (String x r) = true) \/
  (Json.escape_byte a = String a "" /\ ascii7 a = false).
Proof.
  unfold Json.escape_byte.
  repeat match goal with
  | |- context [if (N_of_ascii a =? ?k)%N then _ else _] =>
      destruct (N_of_ascii a =? k)%N; [left; by eexists _, _|]
  end.
  destruct (N_of_ascii a <? 32)%N.
  { left. eexists _, _. split; [reflexivity|].
    apply (plain_app "\u"); [done|]. apply plain_hex_of. }
  destruct (ascii7 a) eqn:Ha; [left|by right].
  eexists _, _. split; [reflexivity|]. simpl. by rewrite Ha.
Qed.

Arguments Json.escape : simpl never.

Lemma escape_cons3 a b c s :
  Json.escape (String a (String b (String c s)))
  = if Utf8.lone_surrogate a b c
    then "\u" +:+ Json.hex4 (Json.surrogate_of b c) +:+ Json.escape s
    else Json.escape_byte a +:+ Json.escape (String b (String c s)).
Proof. reflexivity. Qed.

Lemma escape_cons2 a b :
  Json.escape (String a (String b "")) = Json.escape_byte a +:+ Json.escape (String b "").
Proof. reflexivity. Qed.

Lemma escape_cons1 a : Json.escape (String a "") = Json.escape_byte a +:+ "".
Proof. reflexivity. Qed.

(** The output for a string starts with a byte of ASCII, or with the first
    byte of the string, which then is none, before the output for the
    rest. *)
Lemma escape_first b s :
  (exists x r, Json.escape (String b s) = String x r /\ ascii7 x = true) \/
  (ascii7 b = false /\ Json.escape (String b s) = String b (Json.escape s)).
Proof.
  assert (forall rest,
    (exists x r, Json.escape_byte b +:+ rest = String x r /\ ascii7 x = true) \/
    (ascii7 b = false /\ Json.escape_byte b +:+ rest = String b rest)) as Hbyte.
  { intros rest. destruct (escape_byte_cases b) as [(x & r & -> & Hp)|[-> Hb]].
    - left. exists x, (r +:+ rest). split; [done|]. simpl in Hp.
      by apply andb_prop in Hp as [? _].
    - by right. }
  destruct s as [|c [|d s]].
  - rewrite escape_cons1. apply Hbyte.
  - rewrite escape_cons2. apply Hbyte.
  - rewrite escape_cons3. destruct (Utf8.lone_surrogate b c d); [|apply Hbyte].
    left. by eexists _, _.
Qed.

Lemma tail_first x y : ascii7 x = true -> Utf8.surrogate_tail x y = false.
Proof.
  unfold ascii7, Utf8.surrogate_tail. intros H%N.ltb_lt.
  by destruct (N.leb_spec 160 (N_of_ascii x)); [lia|].
Qed.

Lemma tail_second x y : ascii7 y = true -> Utf8.surrogate_tail x y = false.
Proof.
  unfold ascii7, Utf8.surrogate_tail. intros H%N.ltb_lt.
  destruct (N.leb_spec 128 (N_of_ascii y)); [lia|]. by rewrite !andb_false_r.
Qed.

Lemma pair_front_head t : head_ascii t -> pair_front t = false.
Proof. destruct t as [|x [|y t]]; try done. simpl. apply tail_first. Qed.

Lemma pair_front_second x t : head_ascii t -> pair_front (String x t) = false.
Proof. destruct t as [|y t]; [done|]. simpl. apply tail_second. Qed.

Lemma encode_cons_no_pair a r :
  pair_front r = false -> Utf8.encode (String a r) = String a (Utf8.encode r).
Proof.
  destruct r as [|b [|c r]]; try done. simpl. intros H.
  rewrite encode_cons3. unfold Utf8.lone_surrogate. by rewrite H, andb_false_r.
Qed.

Lemma head_ascii_escape s t : head_ascii t ->
  head_ascii (Json.escape s +:+ t) \/
  exists b s', s = String b s' /\ ascii7 b = false /\
               Json.escape s +:+ t = String b (Json.escape s' +:+ t).
Proof.
  intros Ht. destruct s as [|b s]; [by left|].
  destruct (escape_first b s) as [(x & r & -> & Hx)|[Hb ->]]; [by left|].
  right. by exists b, s.
Qed.

(** The output for a string that does not start with the tail of a
    surrogate does not start with one. *)
Lemma pair_front_escape s t :
  head_ascii t -> pair_front s = false -> pair_front (Json.escape s +:+ t) = false.
Proof.
  intros Ht Hs.
  destruct (head_ascii_escape s t Ht) as [H|(b & s' & -> & Hb & ->)];
    [by apply pair_front_head|].
  destruct (head_ascii_escape s' t Ht) as [H|(c & s'' & -> & Hc & ->)];
    [by apply pair_front_second|].
  exact Hs.
Qed.

Lemma encode_escape_byte a r :
  (N_of_ascii a =? 237)%N = false \/ pair_front r = false ->
  Utf8.encode (Json.escape_byte a +:+ r) = Json.escape_byte a +:+ Utf8.encode r.
Proof.
  intros H. destruct (escape_byte_cases a) as [(x & u & -> & Hp)|[-> Ha]].
  - by apply encode_plain_app.
  - change (String a "" +:+ ?u) with (String a u).
    destruct H as [H|H]; [by apply encode_cons_other|by apply encode_cons_no_pair].
Qed.

(** The encoding leaves the inside of a JSON string as it is. *)
Lemma encode_escape s : forall t,
  head_ascii t -> Utf8.encode (Json.escape s +:+ t) = Json.escape s +:+ Utf8.encode t.
Proof.
  induction s as [|a|a b IH|a b c s IH1 IH2] using string_ind3; intros t Ht.
  - done.
  - rewrite escape_cons1, !string_app_assoc.
    apply encode_escape_byte. right. by apply pair_front_head.
  - rewrite escape_cons2, !string_app_assoc, encode_escape_byte, IH; [done..|].
    right. by apply pair_front_escape.
  - rewrite escape_cons3. destruct (Utf8.lone_surrogate a b c) eqn:Hlone.
    + rewrite !string_app_assoc. rewrite encode_plain_app by done.
      rewrite encode_plain_app by apply plain_hex_of. by rewrite IH1.
    + rewrite !string_app_assoc, encode_escape_byte, IH2; [done..|].
      unfold Utf8.lone_surrogate in Hlone. apply andb_false_iff in Hlone as [H|H];
        [by left|right]. by apply pair_front_escape.
Qed.

Lemma tidy_quote s : tidy (Json.quote s).
Proof.
  unfold Json.quote. split; [done|]. intros t Ht.
  rewrite !string_app_assoc. rewrite (encode_plain_app Js.dquote) by done.
  rewrite encode_escape by done. by rewrite (encode_plain_app Js.dquote) by done.
Qed.

Lemma tidy_member indent key value :
  plain indent = true -> tidy value -> tidy (Json.member indent key value).
Proof.
  intros Hi Hv. unfold Json.member.
  apply tidy_app; [by apply tidy_plain|].
  apply tidy_app; [apply tidy_quote|].
  apply tidy_app; [by apply tidy_plain|done].
Qed.

Lemma tidy_object indent members :
  plain indent = true -> Forall tidy members -> tidy (Json.object indent members).
Proof.
  intros Hi Hm. unfold Json.object. destruct members as [|m members]; [by apply tidy_plain|].
  apply tidy_app; [by apply tidy_plain|].
  apply tidy_app; [by apply tidy_plain|].
  apply tidy_app; [apply tidy_concat; [by apply tidy_plain|done]|].
  apply tidy_app; [by apply tidy_plain|].
  apply tidy_app; by apply tidy_plain.
Qed.

Lemma tidy_stringify_metadata m : tidy (stringify_metadata m).
Proof.
  unfold stringify_metadata. apply tidy_object; [done|].
  repeat constructor; apply tidy_member; try done;
    try apply tidy_quote; apply tidy_plain, plain_number.
Qed.

(** The text of the index holds no surrogate without its partner: it is
    written as it is. *)
Lemma encode_stringify_index entries :
  Utf8.encode (stringify_index entries) = stringify_index entries.
Proof.
  apply tidy_encode. unfold stringify_index. apply tidy_object; [done|].
  apply Forall_map, Forall_forall. intros kv _.
  apply tidy_member; [done|]. apply tidy_stringify_metadata.
Qed.

(** ** Association lists *)

Section AssocFacts.
Context {V : Type}.
Implicit Types (k : string) (v : V) (m : list (string * V)).

Lemma get_set_eq k v m : Assoc.get k (Assoc.set k v m) = Some v.
Proof.
  induction m as [|[k' v'] m IH]; simpl.
  - by rewrite String.eqb_refl.
  - destruct (String.eqb_spec k k') as [->|Hne]; simpl.
    + by rewrite String.eqb_refl.
    + by destruct (String.eqb_spec k k').
Qed.

Lemma get_set_ne k k' v m : k <> k' -> Assoc.get k' (Assoc.set k v m) = Assoc.get k' m.
Proof.
  intros Hne. induction m as [|[k0 v0] m IH]; simpl.
  - destruct (String.eqb_spec k' k); congruence.
  - destruct (String.eqb_spec k k0) as [->|Hk]; simpl.
    + destruct (String.eqb_spec k' k0); congruence.
    + destruct (String.eqb_spec k' k0); congruence.
Qed.

Lemma set_get_id k v m : Assoc.get k m = Some v -> Assoc.set k v m = m.
Proof.
  induction m as [|[k' v'] m IH]; simpl; [done|].
  destruct (String.eqb_spec k k') as [->|Hne]; intros H.
  - congruence.
  - by rewrite IH.
Qed.

End AssocFacts.

(** ** The disk *)

Section FsFacts.
Import Fs.
Implicit Types (p q : Path.t) (d : node) (c : string).

Lemma writeFile_lookup p : forall c d d',
  writeFile p c d = inr d' -> lookup p d' = inr (File (Utf8.encode c)).
Proof.
  induction p as [|s p IH]; intros c d d' H; simpl in *.
  - by destruct d; fs_cases.
  - destruct d as [|es]; [done|].
    destruct (Assoc.get s es) as [child|] eqn:Hs.
    + destruct (writeFile p c child) as [|child'] eqn:Hw; fs_cases.
      simpl. rewrite get_set_eq. eauto.
    + destruct p; fs_cases. simpl. by rewrite get_set_eq.
Qed.

Lemma writeFile_lookup_other q : forall p c d d' x,
  writeFile q c d = inr d' -> lookup p d = inr (File x) -> p <> q ->
  lookup p d' = inr (File x).
Proof.
  induction q as [|s q IH]; intros p c d d' x Hw Hl Hne; simpl in Hw.
  - destruct d; [|done]. destruct p; [done|]. done.
  - destruct d as [|es]; [done|].
    destruct p as [|t p]; [simpl in Hl; congruence|].
    simpl in Hl. destruct (Assoc.get t es) as [cp|] eqn:Ht; [|done].
    destruct (String.eqb_spec s t) as [->|Hst].
    + rewrite Ht in Hw.
      destruct (writeFile q c cp) as [|cq] eqn:Hq; [done|].
      injection Hw as <-. simpl. rewrite get_set_eq.
      eapply IH; eauto. congruence.
    + destruct (Assoc.get s es) as [cs|] eqn:Hs.
      * destruct (writeFile q c cs) as [|cq] eqn:Hq; [done|].
        injection Hw as <-. simpl. rewrite get_set_ne by done. by rewrite Ht.
      * destruct q; [|done]. injection Hw as <-. simpl.
        rewrite get_set_ne by done. by rewrite Ht.
Qed.

Lemma writable_writeFile p : forall c d,
  writable p d = true -> exists d', writeFile p c d = inr d'.
Proof.
  induction p as [|s p IH]; intros c d H; simpl in *.
  - destruct d; [eauto|done].
  - destruct d as [|es]; [done|].
    destruct (Assoc.get s es) as [child|].
    + destruct (IH c child H) as [child' ->]. eauto.
    + destruct p; [eauto|done].
Qed.

Lemma writeFile_writable p : forall c d d',
  writeFile p c d = inr d' -> writable p d' = true.
Proof.
  induction p as [|s p IH]; intros c d d' H; simpl in *.
  - by destruct d; fs_cases.
  - destruct d as [|es]; [done|].
    destruct (Assoc.get s es) as [child|] eqn:Hs.
    + destruct (writeFile p c child) as [|child'] eqn:Hw; fs_cases.
      simpl. rewrite get_set_eq. eauto.
    + destruct p; fs_cases. simpl. by rewrite get_set_eq.
Qed.

Lemma writeFile_writable_other p : forall q c d d',
  writeFile p c d = inr d' -> writable q d = true -> writable q d' = true.
Proof.
  induction p as [|s p IH]; intros q c d d' Hw Hq; simpl in Hw.
  - destruct d; [|done]. injection Hw as <-. by destruct q.
  - destruct d as [|es]; [done|].
    destruct q as [|t q]; [done|]. simpl in Hq.
    destruct (String.eqb_spec s t) as [->|Hst].
    + destruct (Assoc.get t es) as [child|] eqn:Ht.
      * destruct (writeFile p c child) as [|child'] eqn:Hc; [done|].
        injection Hw as <-. simpl. rewrite get_set_eq. eauto.
      * destruct p; [|done]. injection Hw as <-. simpl. rewrite get_set_eq.
        by destruct q.
    + assert (forall v, Assoc.get t (Assoc.set s v es) = Assoc.get t es) as Hget
        by (intros; by apply get_set_ne).
      destruct (Assoc.get s es) as [child|] eqn:Hs.
      * destruct (writeFile p c child) as [|child'] eqn:Hc; [done|].
        injection Hw as <-. simpl. by rewrite Hget.
      * destruct p; [|done]. injection Hw as <-. simpl. by rewrite Hget.
Qed.

Lemma lookup_file_writable p : forall d x,
  lookup p d = inr (File x) -> writable p d = true.
Proof.
  induction p as [|s p IH]; intros d x H; simpl in *.
  - by injection H as ->.
  - destruct d as [|es]; [done|].
    destruct (Assoc.get s es); [eauto|done].
Qed.

Lemma mkdir_existing p : forall d es,
  lookup p d = inr (Dir es) -> mkdir p d = inr d.
Proof.
  induction p as [|s p IH]; intros d es H; simpl in *.
  - by injection H as ->.
  - destruct d as [|es0]; [done|].
    destruct (Assoc.get s es0) as [child|] eqn:Hs; [|done]. simpl.
    rewrite (IH _ _ H). by rewrite set_get_id.
Qed.

Lemma lookup_dirname p : forall d n,
  lookup p d = inr n -> p <> [] -> exists es, lookup (Path.dirname p) d = inr (Dir es).
Proof.
  unfold Path.dirname.
  induction p as [|s p IH]; intros d n H Hne; [done|].
  simpl in H. destruct d as [|es]; [done|].
  destruct (Assoc.get s es) as [child|] eqn:Hs; [|done].
  destruct p as [|t p]; [simpl; eauto|].
  change (removelast (s :: t :: p)) with (s :: removelast (t :: p)).
  simpl lookup at 1. rewrite Hs. eapply IH; eauto.
Qed.

Lemma mkdir_not_ENOENT p : forall d, mkdir p d <> inl ENOENT.
Proof.
  induction p as [|s p IH]; intros d; simpl.
  - by destruct d.
  - destruct d as [|es]; [done|].
    specialize (IH (default (Dir []) (Assoc.get s es))).
    destruct (mkdir p _) as [[]|]; congruence.
Qed.

Lemma writeFile_existing_not_ENOENT p : forall c d n,
  lookup p d = inr n -> writeFile p c d <> inl ENOENT.
Proof.
  induction p as [|s p IH]; intros c d n H; simpl in *.
  - by destruct d.
  - destruct d as [|es]; [done|].
    destruct (Assoc.get s es) as [child|]; [|done].
    specialize (IH c _ _ H). destruct (writeFile p c child) as [[]|]; congruence.
Qed.

Lemma writeFile_is_dir p : forall r c d d',
  writeFile p c d = inr d' -> is_dir r d = true -> is_dir r d' = true.
Proof.
  unfold is_dir.
  induction p as [|s p IH]; intros r c d d' Hw Hr; simpl in Hw.
  - destruct d; [|done]. by destruct r.
  - destruct d as [|es]; [done|].
    destruct r as [|t r]; [by fs_cases|]. simpl in Hr.
    destruct (String.eqb_spec s t) as [->|Hst].
    + destruct (Assoc.get t es) as [child|] eqn:Ht; [|done].
      destruct (writeFile p c child) as [|child'] eqn:Hc; [done|].
      injection Hw as <-. simpl. rewrite get_set_eq. eauto.
    + assert (forall v, Assoc.get t (Assoc.set s v es) = Assoc.get t es) as Hget
        by (intros; by apply get_set_ne).
      destruct (Assoc.get s es) as [child|] eqn:Hs.
      * destruct (writeFile p c child) as [|child'] eqn:Hc; [done|].
        injection Hw as <-. simpl. by rewrite Hget.
      * destruct p; [|done]. injection Hw as <-. simpl. by rewrite Hget.
Qed.

Lemma writeFile_in_dir_not_ENOENT r : forall f c d,
  is_dir r d = true -> writeFile (r ++ [f]) c d <> inl ENOENT.
Proof.
  unfold is_dir.
  induction r as [|s r IH]; intros f c d H; simpl in *.
  - destruct d as [|es]; [done|].
    destruct (Assoc.get f es) as [[]|]; done.
  - destruct d as [|es]; [done|].
    destruct (Assoc.get s es) as [child|]; [|done].
    specialize (IH f c _ H). destruct (writeFile (r ++ [f]) c child) as [[]|]; congruence.
Qed.

Lemma unlink_absent p : forall d, absent p d -> unlink p d = inl ENOENT.
Proof.
  unfold absent.
  induction p as [|s p IH]; intros d H; simpl in *; [done|].
  destruct d as [|es]; [done|].
  destruct (Assoc.get s es) as [child|]; [|done].
  destruct p as [|t p]; [done|]. by rewrite IH.
Qed.

Lemma readFile_absent p d : absent p d -> readFile p d = inl ENOENT.
Proof. unfold absent, readFile. by intros ->. Qed.

Lemma access_absent p d : absent p d -> access p d = inl ENOENT.
Proof. unfold absent, access. by intros ->. Qed.

Lemma readFile_lookup p d c : readFile p d = inr c <-> lookup p d = inr (File c).
Proof.
  unfold readFile. destruct (lookup p d) as [|[]]; split; congruence.
Qed.

End FsFacts.

(** ** The operations, step by step *)

Arguments Sha256.hex : simpl never.
Arguments stringify_index : simpl never.
Arguments Path.join : simpl never.
Arguments Path.relative : simpl never.
Arguments Path.dirname : simpl never.
Arguments metadataFile : simpl never.
Arguments index : simpl never.

Lemma metadataFile_eq s : metadataFile s = memoryRoot s ++ [".metadata.json"].
Proof. reflexivity. Qed.

(** The object [store] makes. *)
Lemma store_eq filename content category s :
  store filename content category s =
  let p := path_of s filename category in
  match Fs.mkdir (Path.dirname p) (disk s) with
  | inl code => (Thrown (ErrnoException code (Path.dirname p)), s)
  | inr d1 =>
      match Fs.writeFile p content d1 with
      | inl code => (Thrown (ErrnoException code p), with_disk d1 s)
      | inr d2 =>
          match Fs.stat_size p d2 with
          | inl code => (Thrown (ErrnoException code p), with_disk d2 s)
          | inr sz =>
              let m := {| filePath := Path.relative (memoryRoot s) p;
                          contentHash := Sha256.hex content;
                          lastUpdated := clock s;
                          accessCount := 0;
                          size := sz |} in
              let s' := {| memoryRoot := memoryRoot s;
                           metadata := Assoc.set filename (List.length (heap s)) (metadata s);
                           heap := heap s ++ [m];
                           disk := d2;
                           clock := clock s |} in
              match Fs.writeFile (metadataFile s) (stringify_index (index s')) d2 with
              | inl code => (Thrown (ErrnoException code (metadataFile s)), s')
              | inr d3 => (Returned (List.length (heap s)), with_disk d3 s')
              end
          end
      end
  end.
Proof.
  unfold store, store_try, saveMetadata, try_catch, bind, fs_put, fs_get, gets, alloc,
    Map_set, modify, new_Date, throw, ret, path_of. simpl.
  destruct (Fs.mkdir _ _) as [|d1]; [done|]. simpl.
  destruct (Fs.writeFile _ content d1) as [|d2]; [done|]. simpl.
  destruct (Fs.stat_size _ d2) as [|sz]; [done|]. simpl.
  unfold metadataFile at 1 2. simpl.
  destruct (Fs.writeFile _ _ d2) as [|d3]; done.
Qed.

Lemma retrieve_eq filename category s :
  retrieve filename category s =
  let p := path_of s filename category in
  let rethrow (e : exn) :=
    if is_ENOENT e then Error ("Memory file not found: " +:+ filename) else e in
  match Fs.readFile p (disk s) with
  | inl code => (Thrown (rethrow (ErrnoException code p)), s)
  | inr c =>
      match Assoc.get filename (metadata s) with
      | Some r =>
          let s' := snd (touch r s) in
          match Fs.writeFile (metadataFile s) (stringify_index (index s')) (disk s) with
          | inl code => (Thrown (rethrow (ErrnoException code (metadataFile s))), s')
          | inr d => (Returned {| content := c; metadata_of := r |}, with_disk d s')
          end
      | None =>
          (Returned {| content := c; metadata_of := List.length (heap s) |},
           with_heap (heap s ++ [{| filePath := Path.relative (memoryRoot s) p;
                                    contentHash := Sha256.hex c;
                                    lastUpdated := clock s;
                                    accessCount := 1;
                                    size := Js.js_length c |}]) s)
      end
  end.
Proof.
  unfold retrieve, retrieve_try, saveMetadata, try_catch, bind, fs_put, fs_get, gets, alloc,
    Map_get, touch, modify, new_Date, throw, ret, path_of. simpl.
  destruct (Fs.readFile _ _) as [[]|c]; [done..|]. simpl.
  destruct (Assoc.get _ _) as [r|]; [|done]. simpl.
  destruct (heap s !! r) as [m|]; simpl; unfold metadataFile at 1 2; simpl;
    by destruct (Fs.writeFile _ _ _) as [[]|].
Qed.

Lemma update_eq filename content category s :
  update filename content category s =
  let p := path_of s filename category in
  let rethrow (e : exn) :=
    if is_ENOENT e then Error ("Cannot update non-existent file: " +:+ filename) else e in
  match Fs.access p (disk s) with
  | inl code => (Thrown (rethrow (ErrnoException code p)), s)
  | inr _ =>
      match store filename content category s with
      | (Returned r, s') => (Returned r, s')
      | (Thrown e, s') => (Thrown (rethrow e), s')
      end
  end.
Proof.
  unfold update, update_try, try_catch, bind, fs_get, gets, throw, ret, path_of. simpl.
  destruct (Fs.access _ _) as [[]|[]]; [done..|].
  destruct (store _ _ _ _) as [[r|e] s']; [done|]. by destruct (is_ENOENT e).
Qed.

Lemma remove_eq filename category s :
  remove filename category s =
  let p := path_of s filename category in
  let rethrow (e : exn) :=
    if is_ENOENT e then Error ("Cannot delete non-existent file: " +:+ filename) else e in
  match Fs.unlink p (disk s) with
  | inl code => (Thrown (rethrow (ErrnoException code p)), s)
  | inr d1 =>
      let s' := {| memoryRoot := memoryRoot s;
                   metadata := Assoc.delete filename (metadata s);
                   heap := heap s;
                   disk := d1;
                   clock := clock s |} in
      match Fs.writeFile (metadataFile s) (stringify_index (index s')) d1 with
      | inl code => (Thrown (rethrow (ErrnoException code (metadataFile s))), s')
      | inr d2 => (Returned tt, with_disk d2 s')
      end
  end.
Proof.
  unfold remove, remove_try, saveMetadata, try_catch, bind, fs_put, fs_get, gets,
    Map_delete, modify, throw, ret, path_of. simpl.
  destruct (Fs.unlink _ _) as [[]|d1]; [done..|]. simpl.
  unfold metadataFile at 1 2. simpl.
  by destruct (Fs.writeFile _ _ _) as [[]|].
Qed.

Lemma append_eq filename additionalContent category s :
  append filename additionalContent category s =
  match retrieve filename category s with
  | (Returned r, s') =>
      update filename (content r +:+ Js.newline +:+ additionalContent) category s'
  | (Thrown e, s') => (Thrown e, s')
  end.
Proof.
  unfold append, bind.
  assert (forall s0, retrieve filename (Some (or_system category)) s0
                     = retrieve filename category s0) as ->
    by (intros; by destruct category).
  destruct (retrieve _ _ _) as [[r|e] s']; [|done].
  by destruct category.
Qed.

Lemma writable_nonempty_dir p d : writable p d = true -> p <> [] -> exists es, d = Fs.Dir es.
Proof. destruct p, d; simpl; try done; eauto. Qed.

Lemma stat_size_file p d c :
  Fs.lookup p d = inr (Fs.File c) -> Fs.stat_size p d = inr (Z.of_nat (String.length c)).
Proof. unfold Fs.stat_size. by intros ->. Qed.

(** What a call of [store] that returned has done. *)
Lemma store_returned filename content category s r s1 :
  store filename content category s = (Returned r, s1) ->
  let p := path_of s filename category in
  exists d,
    r = List.length (heap s) /\
    s1 = {| memoryRoot := memoryRoot s;
            metadata := Assoc.set filename r (metadata s);
            heap := heap s ++ [{| filePath := Path.relative (memoryRoot s) p;
                                  contentHash := Sha256.hex content;
                                  lastUpdated := clock s;
                                  accessCount := 0;
                                  size := Z.of_nat (String.length content) |}];
            disk := d;
            clock := clock s |} /\
    writable (metadataFile s) d = true /\
    (p <> metadataFile s -> Fs.lookup p d = inr (Fs.File (Utf8.encode content))).
Proof.
  rewrite store_eq. cbv zeta.
  destruct (Fs.mkdir _ _) as [|d1] eqn:Hmk; [done|].
  destruct (Fs.writeFile _ content d1) as [|d2] eqn:Hw; [done|].
  pose proof (writeFile_lookup _ _ _ _ Hw) as Hl.
  rewrite (stat_size_file _ _ _ Hl), encode_length.
  destruct (Fs.writeFile (metadataFile s) _ d2) as [|d3] eqn:Hsave; [done|].
  intros [= <- <-]. exists d3. split_and!; try done.
  - eapply writeFile_writable; eauto.
  - intros Hne. eapply writeFile_lookup_other; eauto.
Qed.

(** [store] returns when a file is at the path already and the index file
    can be written. *)
Lemma store_returns filename content category s old :
  let p := path_of s filename category in
  Fs.lookup p (disk s) = inr (Fs.File old) ->
  writable (metadataFile s) (disk s) = true ->
  exists s1, store filename content category s = (Returned (List.length (heap s)), s1).
Proof.
  intros p Hl Hidx. rewrite store_eq. cbv zeta. fold p.
  destruct (writable_nonempty_dir _ _ Hidx) as [es Hd].
  { rewrite metadataFile_eq. by destruct (memoryRoot s). }
  assert (p <> []) as Hp by (intros Hp; rewrite Hp, Hd in Hl; done).
  destruct (lookup_dirname _ _ _ Hl Hp) as [es' Hdir].
  rewrite (mkdir_existing _ _ _ Hdir).
  destruct (writable_writeFile p content _ (lookup_file_writable _ _ _ Hl)) as [d2 Hw].
  rewrite Hw. rewrite (stat_size_file _ _ _ (writeFile_lookup _ _ _ _ Hw)).
  pose proof (writeFile_writable_other _ _ _ _ _ Hw Hidx) as Hidx2.
  match goal with |- context [Fs.writeFile (metadataFile s) ?j d2] =>
    destruct (writable_writeFile (metadataFile s) j _ Hidx2) as [d3 ->] end.
  eauto.
Qed.

Lemma touch_tracked r s m :
  heap s !! r = Some m ->
  snd (touch r s) =
  with_heap (<[r := {| filePath := filePath m;
                       contentHash := contentHash m;
                       lastUpdated := clock s;
                       accessCount := accessCount m + 1;
                       size := size m |}]> (heap s)) s.
Proof. unfold touch, bind, new_Date, gets, modify. simpl. by intros ->. Qed.

(** [retrieve] on a file whose name the index knows. *)
Lemma retrieve_tracked filename category s c r m :
  let p := path_of s filename category in
  Fs.lookup p (disk s) = inr (Fs.File c) ->
  p <> metadataFile s ->
  writable (metadataFile s) (disk s) = true ->
  Assoc.get filename (metadata s) = Some r ->
  heap s !! r = Some m ->
  exists d,
    retrieve filename category s =
      (Returned {| content := c; metadata_of := r |},
       {| memoryRoot := memoryRoot s;
          metadata := metadata s;
          heap := <[r := {| filePath := filePath m;
                            contentHash := contentHash m;
                            lastUpdated := clock s;
                            accessCount := accessCount m + 1;
                            size := size m |}]> (heap s);
          disk := d;
          clock := clock s |}) /\
    Fs.lookup p d = inr (Fs.File c) /\
    writable (metadataFile s) d = true.
Proof.
  intros p Hl Hne Hidx Hget Hr. rewrite retrieve_eq. cbv zeta. fold p.
  rewrite (proj2 (readFile_lookup _ _ _) Hl), Hget, (touch_tracked _ _ _ Hr).
  match goal with |- context [Fs.writeFile (metadataFile s) ?j (disk s)] =>
    destruct (writable_writeFile (metadataFile s) j _ Hidx) as [d Hw] end.
  simpl disk. rewrite Hw. exists d. split_and!; [done|..].
  - eapply writeFile_lookup_other; eauto.
  - eapply writeFile_writable; eauto.
Qed.

(** [retrieve] on a file whose name the index does not know. *)
Lemma retrieve_untracked filename category s c :
  let p := path_of s filename category in
  Fs.readFile p (disk s) = inr c ->
  Assoc.get filename (metadata s) = None ->
  retrieve filename category s =
    (Returned {| content := c; metadata_of := List.length (heap s) |},
     with_heap (heap s ++ [{| filePath := Path.relative (memoryRoot s) p;
                              contentHash := Sha256.hex c;
                              lastUpdated := clock s;
                              accessCount := 1;
                              size := Js.js_length c |}]) s).
Proof. intros p Hr Hget. rewrite retrieve_eq. cbv zeta. fold p. by rewrite Hr, Hget. Qed.

Lemma retrieve_absent filename category s :
  absent (path_of s filename category) (disk s) ->
  retrieve filename category s =
    (Thrown (Error ("Memory file not found: " +:+ filename)), s).
Proof. intros H. rewrite retrieve_eq. cbv zeta. by rewrite (readFile_absent _ _ H). Qed.

Lemma update_absent filename content category s :
  absent (path_of s filename category) (disk s) ->
  update filename content category s =
    (Thrown (Error ("Cannot update non-existent file: " +:+ filename)), s).
Proof. intros H. rewrite update_eq. cbv zeta. by rewrite (access_absent _ _ H). Qed.

Lemma remove_absent filename category s :
  absent (path_of s filename category) (disk s) ->
  remove filename category s =
    (Thrown (Error ("Cannot delete non-existent file: " +:+ filename)), s).
Proof. intros H. rewrite remove_eq. cbv zeta. by rewrite (unlink_absent _ _ H). Qed.

(** ** Sorting *)

Section SortFacts.
Context {A : Type} (key : A -> Z).

Lemma insert_perm (x : A) (l : list A) :
  Permutation (Js.insert (fun a b => key b - key a) x l) (x :: l).
Proof.
  induction l as [|y l IH]; simpl; [done|].
  destruct (0 <? key y - key x); [|done].
  rewrite IH. apply perm_swap.
Qed.

Lemma sort_perm (l : list A) : Permutation (Js.sort (fun a b => key b - key a) l) l.
Proof.
  induction l as [|x l IH]; simpl; [done|].
  rewrite insert_perm. by constructor.
Qed.

Lemma insert_HdRel (a x : A) (l : list A) :
  descending key a x -> HdRel (descending key) a l ->
  HdRel (descending key) a (Js.insert (fun a b => key b - key a) x l).
Proof.
  intros Hax Hl. destruct l as [|y l]; simpl; [by constructor|].
  inversion_clear Hl. destruct (0 <? key y - key x); by constructor.
Qed.

Lemma insert_sorted (x : A) (l : list A) :
  Sorted (descending key) l -> Sorted (descending key) (Js.insert (fun a b => key b - key a) x l).
Proof.
  induction 1 as [|y l Hl IH Hhd]; simpl; [by repeat constructor|].
  destruct (Z.ltb_spec 0 (key y - key x)) as [Hlt|Hge].
  - constructor; [done|]. apply insert_HdRel; [|done]. unfold descending. lia.
  - constructor; [by constructor|]. constructor. unfold descending. lia.
Qed.

Lemma sort_sorted (l : list A) :
  Sorted (descending key) (Js.sort (fun a b => key b - key a) l).
Proof.
  induction l as [|x l IH]; simpl; [constructor|]. by apply insert_sorted.
Qed.

End SortFacts.

Lemma fold_left_sum {A : Type} (f : A -> Z) (l : list A) (acc : Z) :
  fold_left (fun sum m => sum + f m) l acc = acc + sum (map f l).
Proof.
  revert acc. induction l as [|x l IH]; intros acc; simpl; [lia|].
  rewrite IH. lia.
Qed.

(** ** Statistics *)

(** C8: for every state, [getStats] returns, without changing the state,
    [totalFiles] equal to the number of entries of the in-memory index,
    [totalSize] equal to the sum of the [size] fields of their objects,
    [categories] equal to the fixed list [system], [personalities],
    [projects], and [mostAccessed] equal to the first ten, at most, of the
    index's objects in descending order of [accessCount]. *)
Theorem getStats_aggregates_index (s : state) :
  exists st,
    getStats s = (Returned st, s) /\
    totalFiles st = List.length (metadata s) /\
    totalSize st = sum (map (field size (heap s)) (Assoc.values (metadata s))) /\
    categories st = ["system"; "personalities"; "projects"] /\
    (List.length (mostAccessed st) <= 10)%nat /\
    exists sorted,
      Permutation sorted (Assoc.values (metadata s)) /\
      Sorted (descending (field accessCount (heap s))) sorted /\
      mostAccessed st = firstn 10 sorted.
Proof.
  eexists. split; [reflexivity|].
  cbn [totalFiles totalSize categories mostAccessed]. split_and!.
  - unfold Assoc.values. by rewrite length_map.
  - by rewrite fold_left_sum.
  - done.
  - apply firstn_le_length.
  - eexists. split_and!; [|  |reflexivity].
    + apply (sort_perm (field accessCount (heap s))).
    + apply (sort_sorted (field accessCount (heap s))).
Qed.

(** ** Missing files *)

Lemma includes_not_found filename :
  Js.includes "not found" ("Memory file not found: " +:+ filename) = true.
Proof. reflexivity. Qed.

Lemma includes_non_existent_update filename :
  Js.includes "non-existent" ("Cannot update non-existent file: " +:+ filename) = true.
Proof. reflexivity. Qed.

Lemma includes_non_existent_delete filename :
  Js.includes "non-existent" ("Cannot delete non-existent file: " +:+ filename) = true.
Proof. reflexivity. Qed.

(** C1, as the code has it: for every name and category with nothing at
    root/category/name, [retrieve], [update] and [remove] each throw an
    [Error] and leave the state as it was; the message of [retrieve] is
    ["Memory file not found: "] and the name, and contains ["not found"];
    the messages of [update] and [remove] are
    ["Cannot update non-existent file: "] and
    ["Cannot delete non-existent file: "] and the name, and contain
    ["non-existent"]. *)
Theorem missing_file_errors (filename content : string) (category : option string) (s : state) :
  absent (path_of s filename category) (disk s) ->
  (retrieve filename category s
     = (Thrown (Error ("Memory file not found: " +:+ filename)), s) /\
   Js.includes "not found" ("Memory file not found: " +:+ filename) = true) /\
  (update filename content category s
     = (Thrown (Error ("Cannot update non-existent file: " +:+ filename)), s) /\
   Js.includes "non-existent" ("Cannot update non-existent file: " +:+ filename) = true) /\
  (remove filename category s
     = (Thrown (Error ("Cannot delete non-existent file: " +:+ filename)), s) /\
   Js.includes "non-existent" ("Cannot delete non-existent file: " +:+ filename) = true).
Proof.
  intros H. split_and!.
  - by apply retrieve_absent.
  - apply includes_not_found.
  - by apply update_absent.
  - apply includes_non_existent_update.
  - by apply remove_absent.
  - apply includes_non_existent_delete.
Qed.

Lemma missing_file_errors_witness :
  absent (path_of (fresh ["tmp"; "neko"] 0) "a.md" None) (disk (fresh ["tmp"; "neko"] 0)) /\
  retrieve "a.md" None (fresh ["tmp"; "neko"] 0)
    = (Thrown (Error "Memory file not found: a.md"), fresh ["tmp"; "neko"] 0).
Proof.
  split; [reflexivity|].
  apply (missing_file_errors "a.md" "x" None (fresh ["tmp"; "neko"] 0)). reflexivity.
Defined.

(** C1 as the spec has it fails for [update] and [remove]: on a store that
    holds no [a.md], the messages they throw do not contain ["not found"]. *)
Lemma update_remove_message_lacks_not_found :
  absent (path_of (fresh ["tmp"; "neko"] 0) "a.md" None) (disk (fresh ["tmp"; "neko"] 0)) /\
  (exists msg, update "a.md" "x" None (fresh ["tmp"; "neko"] 0)
                 = (Thrown (Error msg), fresh ["tmp"; "neko"] 0) /\
               Js.includes "not found" msg = false) /\
  (exists msg, remove "a.md" None (fresh ["tmp"; "neko"] 0)
                 = (Thrown (Error msg), fresh ["tmp"; "neko"] 0) /\
               Js.includes "not found" msg = false).
Proof.
  split_and!.
  - reflexivity.
  - exists "Cannot update non-existent file: a.md". by vm_compute.
  - exists "Cannot delete non-existent file: a.md". by vm_compute.
Qed.

(** C10: for every name and category with nothing at root/category/name,
    [append] throws the not-found error of [retrieve] and leaves the whole
    state as it was: no file is made, and the index in memory and the index
    file stay the same. *)
Theorem append_missing_file (filename extra : string) (category : option string) (s : state) :
  absent (path_of s filename category) (disk s) ->
  append filename extra category s
    = (Thrown (Error ("Memory file not found: " +:+ filename)), s).
Proof. intros H. rewrite append_eq. by rewrite (retrieve_absent _ _ _ H). Qed.

Lemma append_missing_file_witness :
  absent (path_of (fresh ["tmp"; "neko"] 0) "a.md" (Some "projects"))
         (disk (fresh ["tmp"; "neko"] 0)) /\
  append "a.md" "more" (Some "projects") (fresh ["tmp"; "neko"] 0)
    = (Thrown (Error "Memory file not found: a.md"), fresh ["tmp"; "neko"] 0).
Proof.
  split; [reflexivity|].
  apply (append_missing_file "a.md" "more" (Some "projects") (fresh ["tmp"; "neko"] 0)).
  reflexivity.
Defined.

(** ** Files the index does not know *)

Lemma path_of_root s s' filename category :
  memoryRoot s' = memoryRoot s -> path_of s' filename category = path_of s filename category.
Proof. unfold path_of. by intros ->. Qed.

Lemma metadataFile_root s s' :
  memoryRoot s' = memoryRoot s -> metadataFile s' = metadataFile s.
Proof. unfold metadataFile. by intros ->. Qed.

Lemma times_S {A : Type} (n : nat) (m : M A) (s : state) :
  times (S n) m s =
  match m s with
  | (Returned a, s1) =>
      match times n m s1 with
      | (Returned rest, s2) => (Returned (a :: rest), s2)
      | (Thrown e, s2) => (Thrown e, s2)
      end
  | (Thrown e, s1) => (Thrown e, s1)
  end.
Proof.
  simpl. unfold bind. destruct (m s) as [[a|e] s1]; [|done].
  by destruct (times n m s1) as [[rest|e] s2].
Qed.

(** C9: for every file on the disk whose name has no record in the index in
    memory, every one of [n] consecutive calls of [retrieve] returns the
    content of the file with a new object whose [contentHash] is the hash of
    that content and whose [accessCount] is 1; the index in memory and the
    disk, with the index file on it, are the same after the calls, and the
    objects that were in the heap are untouched. *)
Theorem retrieve_untracked_changes_nothing
    (filename : string) (category : option string) (c : string) (n : nat) :
  forall s : state,
  Fs.readFile (path_of s filename category) (disk s) = inr c ->
  Assoc.get filename (metadata s) = None ->
  exists rs s' objects,
    times n (retrieve filename category) s = (Returned rs, s') /\
    List.length rs = n /\
    metadata s' = metadata s /\
    disk s' = disk s /\
    heap s' = heap s ++ objects /\
    Forall (fun r => content r = c /\
                     exists m, heap s' !! metadata_of r = Some m /\
                               contentHash m = Sha256.hex c /\
                               accessCount m = 1) rs.
Proof.
  induction n as [|n IH]; intros s Hfile Hnone.
  - exists [], s, []. split_and!; try done. by rewrite app_nil_r.
  - rewrite times_S, (retrieve_untracked _ _ _ _ Hfile Hnone).
    set (m0 := {| filePath := Path.relative (memoryRoot s) (path_of s filename category);
                  contentHash := Sha256.hex c;
                  lastUpdated := clock s;
                  accessCount := 1;
                  size := Js.js_length c |}).
    destruct (IH (with_heap (heap s ++ [m0]) s) Hfile Hnone)
      as (rs & s' & objs & Hrun & Hlen & Hmeta & Hdisk & Hheap & Hall).
    rewrite Hrun.
    simpl in Hmeta, Hdisk, Hheap. rewrite <- app_assoc in Hheap.
    eexists _, s', _. split_and!; try done.
    + simpl. by rewrite Hlen.
    + constructor; [|done]. split; [done|]. simpl.
      exists m0. split; [|done]. rewrite Hheap. by apply list_lookup_middle.
Qed.

Lemma retrieve_untracked_changes_nothing_witness :
  let s := with_metadata [] (snd (store "note.md" "hello" None (fresh ["tmp"; "neko"] 0))) in
  Fs.readFile (path_of s "note.md" None) (disk s) = inr "hello" /\
  Assoc.get "note.md" (metadata s) = None /\
  exists rs s' objects,
    times 2 (retrieve "note.md" None) s = (Returned rs, s') /\
    List.length rs = 2%nat /\
    metadata s' = metadata s /\
    disk s' = disk s /\
    heap s' = heap s ++ objects /\
    Forall (fun r => content r = "hello" /\
                     exists m, heap s' !! metadata_of r = Some m /\
                               contentHash m = Sha256.hex "hello" /\
                               accessCount m = 1) rs.
Proof.
  intros s. split; [by vm_compute|]. split; [reflexivity|].
  apply (retrieve_untracked_changes_nothing "note.md" None "hello" 2 s);
    [by vm_compute|reflexivity].
Defined.

(** ** Writing and reading back *)

(** C3, as the code has it: for every name, content and category whose path
    root/category/name is not the path of the index file itself, when
    [store] has returned, [retrieve] with the same name and category returns
    and its content is the text the bytes written stand for: the content
    stored with every surrogate that has no partner made U+FFFD; it is the
    content stored, byte for byte and whatever its length, when no
    surrogate of it is without its partner. *)
Theorem store_then_retrieve
    (filename content : string) (category : option string) (s s1 : state) (r : ref) :
  path_of s filename category <> metadataFile s ->
  store filename content category s = (Returned r, s1) ->
  exists s2,
    retrieve filename category s1
      = (Returned {| content := Utf8.encode content; metadata_of := r |}, s2) /\
    (Utf8.well_formed content = true ->
     retrieve filename category s1 = (Returned {| content := content; metadata_of := r |}, s2)).
Proof.
  intros Hne Hstore.
  destruct (store_returned _ _ _ _ _ _ Hstore) as (d & Hr & Hs1 & Hidx & Hfile).
  pose proof (Hfile Hne) as Hl.
  assert (memoryRoot s1 = memoryRoot s) as Hroot by (by rewrite Hs1).
  edestruct (retrieve_tracked filename category s1 (Utf8.encode content) r) as (d' & Hret & _).
  - rewrite (path_of_root _ _ _ _ Hroot). by rewrite Hs1.
  - by rewrite (path_of_root _ _ _ _ Hroot), (metadataFile_root _ _ Hroot).
  - rewrite (metadataFile_root _ _ Hroot). by rewrite Hs1.
  - rewrite Hs1. apply get_set_eq.
  - rewrite Hs1, Hr. by apply list_lookup_middle.
  - eexists. split; [exact Hret|]. intros Hwf. rewrite Hret.
    by rewrite (encode_well_formed _ Hwf).
Qed.

Lemma store_then_retrieve_witness :
  path_of (fresh ["tmp"; "neko"] 0) "note.md" (Some "projects")
    <> metadataFile (fresh ["tmp"; "neko"] 0) /\
  store "note.md" "hello" (Some "projects") (fresh ["tmp"; "neko"] 0)
    = (Returned 0%nat, snd (store "note.md" "hello" (Some "projects") (fresh ["tmp"; "neko"] 0))) /\
  Utf8.well_formed "hello" = true /\
  exists s2,
    retrieve "note.md" (Some "projects")
      (snd (store "note.md" "hello" (Some "projects") (fresh ["tmp"; "neko"] 0)))
    = (Returned {| content := "hello"; metadata_of := 0%nat |}, s2).
Proof.
  assert (path_of (fresh ["tmp"; "neko"] 0) "note.md" (Some "projects")
            <> metadataFile (fresh ["tmp"; "neko"] 0)) as Hne by (by vm_compute).
  assert (store "note.md" "hello" (Some "projects") (fresh ["tmp"; "neko"] 0)
            = (Returned 0%nat,
               snd (store "note.md" "hello" (Some "projects") (fresh ["tmp"; "neko"] 0))))
    as Hstore by (by vm_compute).
  assert (Utf8.well_formed "hello" = true) as Hwf by reflexivity.
  split; [exact Hne|]. split; [exact Hstore|]. split; [exact Hwf|].
  destruct (store_then_retrieve _ _ _ _ _ _ Hne Hstore) as (s2 & _ & H).
  exists s2. exact (H Hwf).
Defined.

(** C3 as the spec has it fails for the name of the index file: [store] of
    [.metadata.json] in the category [.] writes the content to the index
    file, saves the index over it and returns; [retrieve] then returns the
    text of the index, not the content stored. *)
Lemma index_file_does_not_round_trip :
  let s1 := snd (store ".metadata.json" "hello" (Some ".") (fresh ["tmp"; "neko"] 0)) in
  let s2 := snd (retrieve ".metadata.json" (Some ".") s1) in
  path_of (fresh ["tmp"; "neko"] 0) ".metadata.json" (Some ".")
    = metadataFile (fresh ["tmp"; "neko"] 0) /\
  store ".metadata.json" "hello" (Some ".") (fresh ["tmp"; "neko"] 0) = (Returned 0%nat, s1) /\
  retrieve ".metadata.json" (Some ".") s1
    = (Returned {| content := stringify_index (index s1); metadata_of := 0%nat |}, s2) /\
  stringify_index (index s1) <> "hello".
Proof. by vm_compute. Qed.

(** C3 as the spec has it fails also for a content that holds a surrogate
    without its partner, under any name: [store] of the one code unit
    U+D800 writes U+FFFD, and [retrieve] returns U+FFFD. *)
Lemma lone_surrogate_does_not_round_trip :
  let content := String "237" (String "160" (String "128" "")) in
  let read := String "239" (String "191" (String "189" "")) in
  let s1 := snd (store "note.md" content None (fresh ["tmp"; "neko"] 0)) in
  let s2 := snd (retrieve "note.md" None s1) in
  Js.js_length content = 1 /\
  store "note.md" content None (fresh ["tmp"; "neko"] 0) = (Returned 0%nat, s1) /\
  retrieve "note.md" None s1 = (Returned {| content := read; metadata_of := 0%nat |}, s2) /\
  read <> content.
Proof. by vm_compute. Qed.

(** ** [update] *)

(** On a file that exists under an existing root, no failure of [store] has
    the code [ENOENT]. *)
Lemma store_existing_throws filename content category s n e s' :
  Fs.lookup (path_of s filename category) (disk s) = inr n ->
  is_dir (memoryRoot s) (disk s) = true ->
  store filename content category s = (Thrown e, s') ->
  is_ENOENT e = false.
Proof.
  intros Hl Hroot. rewrite store_eq. cbv zeta.
  set (p := path_of s filename category) in *.
  destruct (Fs.mkdir _ _) as [code|d1] eqn:Hmk.
  { intros [= <- _]. pose proof (mkdir_not_ENOENT (Path.dirname p) (disk s)).
    destruct code; simpl; congruence. }
  assert (d1 = disk s) as ->.
  { destruct p as [|t p'] eqn:Hp.
    - unfold Path.dirname in Hmk. simpl in Hmk. destruct (disk s); congruence.
    - destruct (lookup_dirname (t :: p') _ _ Hl) as [es Hdir]; [done|].
      rewrite (mkdir_existing _ _ _ Hdir) in Hmk. congruence. }
  destruct (Fs.writeFile p content (disk s)) as [code|d2] eqn:Hw.
  { intros [= <- _]. pose proof (writeFile_existing_not_ENOENT p content _ _ Hl).
    destruct code; simpl; congruence. }
  rewrite (stat_size_file _ _ _ (writeFile_lookup _ _ _ _ Hw)).
  destruct (Fs.writeFile (metadataFile s) _ d2) as [code|d3] eqn:Hsave; [|done].
  intros [= <- _].
  pose proof (writeFile_is_dir _ _ _ _ _ Hw Hroot) as Hroot2.
  rewrite metadataFile_eq in Hsave.
  match type of Hsave with Fs.writeFile _ ?j _ = _ =>
    pose proof (writeFile_in_dir_not_ENOENT _ ".metadata.json" j _ Hroot2) as Hno end.
  rewrite Hsave in Hno. destruct code; simpl; congruence.
Qed.

(** C5, as the code has it: for every name, content and category: when
    something exists at root/category/name, [update] returns exactly when
    [store] returns, with the same object and the same state, and, the root
    directory existing, [update] and [store] are the same in every outcome;
    when [update] returns, the index maps the name to the object returned,
    whose [accessCount] is 0 and whose hash and size are those of the new
    content, and the file, unless it is the index file, then reads as the
    text the bytes written stand for, which is the new content when no
    surrogate of it is without its partner; when nothing exists at the path,
    [update] throws its not-found error and leaves the state as it was. *)
Theorem update_is_guarded_store
    (filename content : string) (category : option string) (s : state) :
  (forall n, Fs.lookup (path_of s filename category) (disk s) = inr n ->
     (forall r s', update filename content category s = (Returned r, s') <->
                   store filename content category s = (Returned r, s')) /\
     (is_dir (memoryRoot s) (disk s) = true ->
      update filename content category s = store filename content category s)) /\
  (forall r s', update filename content category s = (Returned r, s') ->
     Assoc.get filename (metadata s') = Some r /\
     (exists m, heap s' !! r = Some m /\
                accessCount m = 0 /\
                contentHash m = Sha256.hex content /\
                size m = Z.of_nat (String.length content)) /\
     (path_of s filename category <> metadataFile s ->
      Fs.readFile (path_of s filename category) (disk s') = inr (Utf8.encode content) /\
      (Utf8.well_formed content = true ->
       Fs.readFile (path_of s filename category) (disk s') = inr content))) /\
  (absent (path_of s filename category) (disk s) ->
   update filename content category s
     = (Thrown (Error ("Cannot update non-existent file: " +:+ filename)), s)).
Proof.
  assert (forall r s', update filename content category s = (Returned r, s') ->
                       store filename content category s = (Returned r, s')) as Hsame.
  { intros r s'. rewrite update_eq. cbv zeta.
    destruct (Fs.access _ _) as [code|[]]; [done|].
    by destruct (store filename content category s) as [[r0|e] s0]. }
  split_and!.
  - intros n Hl. split.
    + intros r s'. split; [apply Hsame|].
      intros Hstore. rewrite update_eq. cbv zeta. unfold Fs.access. by rewrite Hl, Hstore.
    + intros Hroot. rewrite update_eq. cbv zeta. unfold Fs.access. rewrite Hl.
      destruct (store filename content category s) as [[r|e] s'] eqn:Hstore; [done|].
      by rewrite (store_existing_throws _ _ _ _ _ _ _ Hl Hroot Hstore).
  - intros r s' Hup.
    destruct (store_returned _ _ _ _ _ _ (Hsame _ _ Hup)) as (d & Hr & Hs' & Hidx & Hfile).
    split_and!.
    + rewrite Hs'. apply get_set_eq.
    + eexists. split; [rewrite Hs', Hr; by apply list_lookup_middle|]. done.
    + intros Hne.
      assert (Fs.readFile (path_of s filename category) (disk s') = inr (Utf8.encode content))
        as Hread by (rewrite Hs'; simpl; apply readFile_lookup; by apply Hfile).
      split; [done|]. intros Hwf. by rewrite Hread, (encode_well_formed _ Hwf).
  - apply update_absent.
Qed.

Lemma update_is_guarded_store_witness :
  let s := snd (store "note.md" "hello" None (fresh ["tmp"; "neko"] 0)) in
  Fs.lookup (path_of s "note.md" None) (disk s) = inr (Fs.File "hello") /\
  is_dir (memoryRoot s) (disk s) = true /\
  update "note.md" "hello world" None s = store "note.md" "hello world" None s /\
  absent (path_of s "other.md" None) (disk s) /\
  update "other.md" "x" None s
    = (Thrown (Error "Cannot update non-existent file: other.md"), s).
Proof.
  intros s.
  assert (Fs.lookup (path_of s "note.md" None) (disk s) = inr (Fs.File "hello")) as Hl
    by (by vm_compute).
  assert (is_dir (memoryRoot s) (disk s) = true) as Hroot by (by vm_compute).
  assert (absent (path_of s "other.md" None) (disk s)) as Habs by (by vm_compute).
  split; [exact Hl|]. split; [exact Hroot|]. split; [|split; [exact Habs|]].
  - exact (proj2 (proj1 (update_is_guarded_store "note.md" "hello world" None s) _ Hl) Hroot).
  - exact (proj2 (proj2 (update_is_guarded_store "other.md" "x" None s)) Habs).
Defined.

(** C5 as the spec has it fails where the root directory is missing: on a
    backend made for [/tmp/neko], which does not exist, beside an existing
    file [/tmp/x.md], [store] of [x.md] in the category [..] replaces the
    file and then throws the [ENOENT] of writing the index file; [update]
    does the same to the disk but throws its not-found error, though the
    file was there. *)
Lemma update_without_root_is_not_store :
  let disk0 := Fs.Dir [("tmp", Fs.Dir [("x.md", Fs.File "old")])] in
  let s := construct ["tmp"; "neko"] [] disk0 0 in
  Fs.lookup (path_of s "x.md" (Some "..")) (disk s) = inr (Fs.File "old") /\
  fst (store "x.md" "new" (Some "..") s)
    = Thrown (ErrnoException Fs.ENOENT ["tmp"; "neko"; ".metadata.json"]) /\
  fst (update "x.md" "new" (Some "..") s)
    = Thrown (Error "Cannot update non-existent file: x.md") /\
  Fs.readFile ["tmp"; "x.md"] (disk (snd (update "x.md" "new" (Some "..") s))) = inr "new" /\
  update "x.md" "new" (Some "..") s <> store "x.md" "new" (Some "..") s.
Proof. by vm_compute. Qed.

(** ** [append] *)

(** [retrieve] returns the content of a file that exists beside a writable
    index file, and leaves both so. *)
Lemma retrieve_returns filename category s c :
  let p := path_of s filename category in
  Fs.lookup p (disk s) = inr (Fs.File c) ->
  p <> metadataFile s ->
  writable (metadataFile s) (disk s) = true ->
  exists r s',
    retrieve filename category s = (Returned {| content := c; metadata_of := r |}, s') /\
    memoryRoot s' = memoryRoot s /\
    Fs.lookup p (disk s') = inr (Fs.File c) /\
    writable (metadataFile s) (disk s') = true.
Proof.
  intros p Hl Hne Hidx. rewrite retrieve_eq. cbv zeta. fold p.
  rewrite (proj2 (readFile_lookup _ _ _) Hl).
  destruct (Assoc.get filename (metadata s)) as [r|]; [|by eexists _, _].
  match goal with |- context [Fs.writeFile (metadataFile s) ?j (disk s)] =>
    destruct (writable_writeFile (metadataFile s) j _ Hidx) as [d Hw] end.
  rewrite Hw. eexists _, _. split; [reflexivity|]. split_and!.
  - unfold touch, bind, new_Date, gets, modify. simpl. by destruct (heap s !! r).
  - simpl. eapply writeFile_lookup_other; eauto.
  - simpl. eapply writeFile_writable; eauto.
Qed.

(** C6, as the code has it: for every file that reads as [old] at
    root/category/name, other than the index file and beside an index file
    that can be written, [append] returns an object whose [accessCount] is 0
    and whose hash and size are those of [old], a newline and [extra]; the
    file then reads as the text the bytes written stand for, which is
    [old], a newline and [extra] when no surrogate of [old] or of [extra] is
    without its partner; and, the path not being that of the index file,
    when [store] of ["A"] has returned, [append] of ["B"] returns and
    [retrieve] then returns ["A"], a newline and ["B"]. *)
Theorem append_concatenates
    (filename extra : string) (category : option string) :
  (forall (s : state) (old : string),
     Fs.readFile (path_of s filename category) (disk s) = inr old ->
     path_of s filename category <> metadataFile s ->
     writable (metadataFile s) (disk s) = true ->
     exists r s' m,
       append filename extra category s = (Returned r, s') /\
       Fs.readFile (path_of s filename category) (disk s')
         = inr (Utf8.encode (old +:+ Js.newline +:+ extra)) /\
       (Utf8.well_formed old = true -> Utf8.well_formed extra = true ->
        Fs.readFile (path_of s filename category) (disk s')
          = inr (old +:+ Js.newline +:+ extra)) /\
       Assoc.get filename (metadata s') = Some r /\
       heap s' !! r = Some m /\
       accessCount m = 0 /\
       contentHash m = Sha256.hex (old +:+ Js.newline +:+ extra) /\
       size m = Z.of_nat (String.length (old +:+ Js.newline +:+ extra))) /\
  (forall (s s1 : state) (r0 : ref),
     path_of s filename category <> metadataFile s ->
     store filename "A" category s = (Returned r0, s1) ->
     exists r1 s2 r s3,
       append filename "B" category s1 = (Returned r1, s2) /\
       retrieve filename category s2 = (Returned r, s3) /\
       content r = "A" +:+ Js.newline +:+ "B").
Proof.
  assert (forall (add : string) (s : state) (old : string),
     Fs.readFile (path_of s filename category) (disk s) = inr old ->
     path_of s filename category <> metadataFile s ->
     writable (metadataFile s) (disk s) = true ->
     exists r s' m,
       append filename add category s = (Returned r, s') /\
       store filename (old +:+ Js.newline +:+ add) category
         (snd (retrieve filename category s)) = (Returned r, s') /\
       memoryRoot (snd (retrieve filename category s)) = memoryRoot s /\
       Fs.readFile (path_of s filename category) (disk s')
         = inr (Utf8.encode (old +:+ Js.newline +:+ add)) /\
       Assoc.get filename (metadata s') = Some r /\
       heap s' !! r = Some m /\
       accessCount m = 0 /\
       contentHash m = Sha256.hex (old +:+ Js.newline +:+ add) /\
       size m = Z.of_nat (String.length (old +:+ Js.newline +:+ add))) as Happend.
  { intros add s old Hread Hne Hidx. apply readFile_lookup in Hread.
    destruct (retrieve_returns _ _ _ _ Hread Hne Hidx) as (r0 & sa & Hret & Hroot & Hl & Hidxa).
    rewrite append_eq, Hret. simpl content. simpl snd.
    set (new := old +:+ Js.newline +:+ add).
    rewrite <- (path_of_root _ _ filename category Hroot) in Hl, Hne.
    rewrite <- (metadataFile_root _ _ Hroot) in Hidxa, Hne.
    destruct (store_returns filename new category sa old Hl Hidxa) as [s' Hstore].
    rewrite update_eq. cbv zeta. unfold Fs.access. rewrite Hl, Hstore.
    destruct (store_returned _ _ _ _ _ _ Hstore) as (d & Hr & Hs' & _ & Hfile).
    pose proof (Hfile Hne) as Hl'.
    rewrite (path_of_root _ _ filename category Hroot) in Hl'.
    eexists _, s', _. split_and!; try done.
    - rewrite Hs'. simpl. by apply readFile_lookup.
    - rewrite Hs'. apply get_set_eq.
    - rewrite Hs'. simpl. by apply list_lookup_middle.
    - done.
    - done.
    - done. }
  split.
  - intros s old Hread Hne Hidx.
    destruct (Happend extra s old Hread Hne Hidx)
      as (r & s' & m & Hrun & _ & _ & Hfile & Hget & Hheap & Hcount & Hhash & Hsize).
    exists r, s', m. split_and!; try done.
    intros Hold Hextra. by rewrite Hfile, encode_lines.
  - intros s s1 r0 Hne Hstore.
    destruct (store_returned _ _ _ _ _ _ Hstore) as (d & Hr & Hs1 & Hidx & Hfile).
    pose proof (Hfile Hne) as Hl.
    assert (memoryRoot s1 = memoryRoot s) as Hroot by (by rewrite Hs1).
    assert (disk s1 = d) as Hd by (by rewrite Hs1).
    rewrite <- (path_of_root _ _ filename category Hroot) in Hl, Hne.
    rewrite <- (metadataFile_root _ _ Hroot) in Hidx, Hne.
    rewrite <- Hd in Hl, Hidx.
    destruct (Happend "B" s1 "A" (proj2 (readFile_lookup _ _ _) Hl) Hne Hidx)
      as (r1 & s2 & m & Hrun & Hstore2 & Hroota & Hfile2 & _).
    destruct (store_returned _ _ _ _ _ _ Hstore2) as (d2 & _ & Hs2 & Hidx2 & _).
    assert (memoryRoot s2 = memoryRoot s1) as Hroot2 by (by rewrite Hs2).
    apply readFile_lookup in Hfile2.
    rewrite <- (path_of_root _ _ filename category Hroot2) in Hfile2, Hne.
    rewrite (metadataFile_root _ _ Hroota) in Hidx2.
    rewrite <- (metadataFile_root _ _ Hroot2) in Hidx2, Hne.
    assert (disk s2 = d2) as Hd2 by (by rewrite Hs2). rewrite <- Hd2 in Hidx2.
    destruct (retrieve_returns _ _ _ _ Hfile2 Hne Hidx2) as (r & s3 & Hret & _).
    by eexists r1, s2, _, s3.
Qed.

Lemma append_concatenates_witness :
  let s := snd (store "note.md" "A" None (fresh ["tmp"; "neko"] 0)) in
  Fs.readFile (path_of s "note.md" None) (disk s) = inr "A" /\
  path_of s "note.md" None <> metadataFile s /\
  writable (metadataFile s) (disk s) = true /\
  Utf8.well_formed "A" = true /\
  Utf8.well_formed "B" = true /\
  exists r s' m,
    append "note.md" "B" None s = (Returned r, s') /\
    Fs.readFile (path_of s "note.md" None) (disk s') = inr ("A" +:+ Js.newline +:+ "B") /\
    Assoc.get "note.md" (metadata s') = Some r /\
    heap s' !! r = Some m /\
    accessCount m = 0 /\
    contentHash m = Sha256.hex ("A" +:+ Js.newline +:+ "B") /\
    size m = Z.of_nat (String.length ("A" +:+ Js.newline +:+ "B")).
Proof.
  intros s.
  assert (Fs.readFile (path_of s "note.md" None) (disk s) = inr "A") as Hread
    by (by vm_compute).
  assert (path_of s "note.md" None <> metadataFile s) as Hne by (by vm_compute).
  assert (writable (metadataFile s) (disk s) = true) as Hidx by (by vm_compute).
  assert (Utf8.well_formed "A" = true) as HA by reflexivity.
  assert (Utf8.well_formed "B" = true) as HB by reflexivity.
  split; [exact Hread|]. split; [exact Hne|]. split; [exact Hidx|].
  split; [exact HA|]. split; [exact HB|].
  destruct (proj1 (append_concatenates "note.md" "B" None) s "A" Hread Hne Hidx)
    as (r & s' & m & Hrun & _ & Hfile & Hrest).
  exists r, s', m. split; [exact Hrun|]. split; [exact (Hfile HA HB)|]. exact Hrest.
Defined.

(** C6 as the spec has it fails for the name of the index file: after
    [store] of ["A"] under [.metadata.json] in the category [.] and [append]
    of ["B"], both of which return, [retrieve] returns the text of the
    index, not ["A"], a newline and ["B"]. *)
Lemma index_file_does_not_concatenate :
  let s1 := snd (store ".metadata.json" "A" (Some ".") (fresh ["tmp"; "neko"] 0)) in
  let s2 := snd (append ".metadata.json" "B" (Some ".") s1) in
  let s3 := snd (retrieve ".metadata.json" (Some ".") s2) in
  path_of (fresh ["tmp"; "neko"] 0) ".metadata.json" (Some ".")
    = metadataFile (fresh ["tmp"; "neko"] 0) /\
  store ".metadata.json" "A" (Some ".") (fresh ["tmp"; "neko"] 0) = (Returned 0%nat, s1) /\
  append ".metadata.json" "B" (Some ".") s1 = (Returned 1%nat, s2) /\
  retrieve ".metadata.json" (Some ".") s2
    = (Returned {| content := stringify_index (index s2); metadata_of := 1%nat |}, s3) /\
  stringify_index (index s2) <> "A" +:+ Js.newline +:+ "B".
Proof. by vm_compute. Qed.

(** C6 as the spec has it fails also for an addition that holds a surrogate
    without its partner, under any name: after [store] of ["A"] and [append]
    of the one code unit U+D800, the entry reads as ["A"], a newline and
    U+FFFD. *)
Lemma lone_surrogate_does_not_concatenate :
  let extra := String "237" (String "160" (String "128" "")) in
  let written := String "239" (String "191" (String "189" "")) in
  let s1 := snd (store "note.md" "A" None (fresh ["tmp"; "neko"] 0)) in
  let s2 := snd (append "note.md" extra None s1) in
  let s3 := snd (retrieve "note.md" None s2) in
  store "note.md" "A" None (fresh ["tmp"; "neko"] 0) = (Returned 0%nat, s1) /\
  append "note.md" extra None s1 = (Returned 1%nat, s2) /\
  retrieve "note.md" None s2
    = (Returned {| content := "A" +:+ Js.newline +:+ written; metadata_of := 1%nat |}, s3) /\
  "A" +:+ Js.newline +:+ written <> "A" +:+ Js.newline +:+ extra.
Proof. by vm_compute. Qed.

(** ** Counting reads *)

(** Consecutive calls of [retrieve] on a file the index knows all return
    the one object of the index, and each adds one to its [accessCount]. *)
Lemma retrieve_times_tracked filename category c r (n : nat) :
  forall (s : state) (m : FileMetadata),
  Fs.lookup (path_of s filename category) (disk s) = inr (Fs.File c) ->
  path_of s filename category <> metadataFile s ->
  writable (metadataFile s) (disk s) = true ->
  Assoc.get filename (metadata s) = Some r ->
  heap s !! r = Some m ->
  exists s' m',
    times n (retrieve filename category) s
      = (Returned (repeat {| content := c; metadata_of := r |} n), s') /\
    Assoc.get filename (metadata s') = Some r /\
    heap s' !! r = Some m' /\
    accessCount m' = accessCount m + Z.of_nat n.
Proof.
  induction n as [|n IH]; intros s m Hl Hne Hidx Hget Hr.
  - exists s, m. split_and!; try done. simpl. lia.
  - destruct (retrieve_tracked _ _ _ _ _ _ Hl Hne Hidx Hget Hr) as (d & Hret & Hl' & Hidx').
    rewrite times_S, Hret.
    match type of Hret with _ = (_, ?s1) =>
      destruct (IH s1 {| filePath := filePath m;
                         contentHash := contentHash m;
                         lastUpdated := clock s;
                         accessCount := accessCount m + 1;
                         size := size m |})
        as (s' & m' & Hrun & Hget' & Hr' & Hcount); try done
    end.
    { simpl. apply list_lookup_insert_eq. by eapply lookup_lt_Some. }
    rewrite Hrun. exists s', m'. split_and!; try done.
    rewrite Hcount. simpl. lia.
Qed.

(** C4, on the code: after [store] of [test.md] and three calls of
    [retrieve], the three calls have returned one and the same object, that
    of the index, whose [accessCount] is then 3 whichever result it is read
    through: the count read through the result of the third call is not
    greater than the count read through the result of the second, nor that
    of the second than that of the first. *)
Theorem retrieve_returns_the_live_record :
  let run := (do! store "test.md" "Test content" None in
              times 3 (retrieve "test.md" None)) (fresh ["tmp"; "neko"] 0) in
  let live := {| content := "Test content"; metadata_of := 0%nat |} in
  fst run = Returned [live; live; live] /\
  Assoc.get "test.md" (metadata (snd run)) = Some (metadata_of live) /\
  field accessCount (heap (snd run)) (metadata_of live) = 3.
Proof. by vm_compute. Qed.

(** ** The directory [list] reads *)

Lemma list_eq category s :
  list_ category s =
  let searchPath :=
    match category with
    | Some c => if String.eqb c "" then memoryRoot s else Path.join (memoryRoot s) [c]
    | None => memoryRoot s
    end in
  match list_try searchPath s with
  | (Returned files, s') => (Returned files, s')
  | (Thrown _, s') => (Returned [], s')
  end.
Proof.
  unfold list_, bind, gets, try_catch, ret. simpl.
  by destruct (list_try _ s) as [[files|e] s'].
Qed.

(** ** Listing *)

(** [list] never throws, leaves the state as it is, and returns objects in
    descending order of [lastUpdated]. *)
Lemma list_sorted category s :
  exists files,
    list_ category s = (Returned files, s) /\
    Sorted (descending (field lastUpdated (heap s))) files.
Proof.
  rewrite list_eq. cbv zeta. unfold list_try, bind, fs_get, gets, ret.
  cbn [fs_readdir tree_fs].
  destruct (Fs.readdir _ _) as [code|entries]; simpl.
  - exists []. split; [done|constructor].
  - eexists. split; [done|]. apply (sort_sorted (field lastUpdated (heap s))).
Qed.

(** C2, on the code: on a new store, after [store] of [old.md], ten
    milliseconds and [store] of [new.md], both in the default category,
    [list] without a category reads the root, where the two files are not,
    and returns the empty sequence; [list] of the category [system] returns
    the object of [new.md] before that of [old.md]. *)
Theorem list_without_category_misses_the_entries :
  let s1 := snd (store "old.md" "Old content" None (fresh ["tmp"; "neko"] 0)) in
  let s2 := snd (store "new.md" "New content" None (advance 10 s1)) in
  let old := 0%nat in
  let new := 1%nat in
  store "old.md" "Old content" None (fresh ["tmp"; "neko"] 0) = (Returned old, s1) /\
  store "new.md" "New content" None (advance 10 s1) = (Returned new, s2) /\
  field lastUpdated (heap s2) old < field lastUpdated (heap s2) new /\
  list_ None s2 = (Returned [], s2) /\
  list_ (Some "system") s2 = (Returned [new; old], s2) /\
  Fs.readdir (memoryRoot s2) (disk s2)
    = inr [ {| Fs.name := ".metadata.json"; Fs.isFile := true |};
            {| Fs.name := "personalities"; Fs.isFile := false |};
            {| Fs.name := "projects"; Fs.isFile := false |};
            {| Fs.name := "system"; Fs.isFile := false |} ].
Proof. by vm_compute. Qed.

(** ** Safe names *)

Lemma segments_nonempty (s : string) : Path.segments s <> [].
Proof.
  destruct s as [|c s]; simpl; [done|].
  destruct (Ascii.eqb c "/"); [done|]. by destruct (Path.segments s).
Qed.

Lemma enter_all (segs : list string) : forall base : Path.t,
  Forall (fun seg => seg <> "" /\ seg <> "." /\ seg <> "..") segs ->
  fold_left Path.enter segs base = base ++ segs.
Proof.
  induction segs as [|seg segs IH]; intros base Hall; simpl.
  - by rewrite app_nil_r.
  - inversion_clear Hall as [|? ? (H1 & H2 & H3) Hrest].
    unfold Path.enter at 2.
    apply String.eqb_neq in H1, H2, H3. rewrite H1, H2, H3.
    rewrite IH by done. by rewrite <- app_assoc.
Qed.

(** A name of one segment under a category of proper segments is a file
    below the root, at the place the two spell and never at the place of the
    index file. *)
Lemma safe_path_not_index (s : state) (filename : string) (category : option string) :
  safe_segment filename ->
  Forall (fun seg => seg <> "" /\ seg <> "." /\ seg <> "..")
         (Path.segments (or_system category)) ->
  path_of s filename category
    = memoryRoot s ++ Path.segments (or_system category) ++ [filename] /\
  path_of s filename category <> metadataFile s.
Proof.
  intros (Hseg & Hname) Hcat.
  assert (path_of s filename category
          = memoryRoot s ++ Path.segments (or_system category) ++ [filename]) as Hp.
  { unfold path_of, Path.join. simpl concat. rewrite Hseg, app_nil_r.
    apply enter_all. apply Forall_app. split; [done|]. by constructor. }
  split; [done|]. rewrite Hp, metadataFile_eq. intros Heq.
  apply app_inv_head in Heq.
  pose proof (segments_nonempty (or_system category)) as Hne.
  destruct (Path.segments (or_system category)) as [|seg [|seg' segs]]; [done|done|].
  simpl in Heq. by destruct segs.
Qed.

(** ** The read counter after a write *)

(** After a [store] that returned, [n] consecutive calls of [retrieve]
    return, all of them the object [store] returned, and its [accessCount]
    is then [n]. *)
Lemma store_then_retrieve_times
    (filename content : string) (category : option string) (s s1 : state) (r : ref) (n : nat) :
  path_of s filename category <> metadataFile s ->
  store filename content category s = (Returned r, s1) ->
  exists s' m,
    times n (retrieve filename category) s1
      = (Returned (repeat {| content := Utf8.encode content; metadata_of := r |} n), s') /\
    Assoc.get filename (metadata s') = Some r /\
    heap s' !! r = Some m /\
    accessCount m = Z.of_nat n.
Proof.
  intros Hne Hstore.
  destruct (store_returned _ _ _ _ _ _ Hstore) as (d & Hr & Hs1 & Hidx & Hfile).
  pose proof (Hfile Hne) as Hl.
  assert (memoryRoot s1 = memoryRoot s) as Hroot by (by rewrite Hs1).
  edestruct (retrieve_times_tracked filename category (Utf8.encode content) r n s1)
    as (s' & m' & Hrun & Hget & Hheap & Hcount).
  - rewrite (path_of_root _ _ _ _ Hroot). by rewrite Hs1.
  - by rewrite (path_of_root _ _ _ _ Hroot), (metadataFile_root _ _ Hroot).
  - rewrite (metadataFile_root _ _ Hroot). by rewrite Hs1.
  - rewrite Hs1. apply get_set_eq.
  - rewrite Hs1, Hr. by apply list_lookup_middle.
  - exists s', m'. split_and!; try done; rewrite Hcount; simpl; lia.
Qed.

(** ** The hash *)

(** The digests of the empty string and of ["abc"] in FIPS 180-4. *)
Lemma sha256_test_vectors :
  Sha256.hex "" = "e3b0c44298fc1c149afbf4c8996fb92427ae41e4649b934ca495991b7852b855" /\
  Sha256.hex "abc" = "ba7816bf8f01cfea414140de5dae2223b00361a396177a9cb410ff61f20015ad".
Proof. by vm_compute. Qed.

(** The scenario of the spec: [store] of ["hello"] gives size 5 and count 0,
    [retrieve] count 1, [update] with ["hello world"] size 11 and count 0,
    and after [remove] a [retrieve] fails as not found. *)
Lemma literal_scenario :
  let s1 := snd (store "note.md" "hello" None (fresh ["tmp"; "neko"] 0)) in
  let s2 := snd (retrieve "note.md" None s1) in
  let s3 := snd (update "note.md" "hello world" None s2) in
  let s4 := snd (remove "note.md" None s3) in
  store "note.md" "hello" None (fresh ["tmp"; "neko"] 0) = (Returned 0%nat, s1) /\
  field size (heap s1) 0%nat = 5 /\ field accessCount (heap s1) 0%nat = 0 /\
  retrieve "note.md" None s1 = (Returned {| content := "hello"; metadata_of := 0%nat |}, s2) /\
  field accessCount (heap s2) 0%nat = 1 /\
  update "note.md" "hello world" None s2 = (Returned 1%nat, s3) /\
  field size (heap s3) 1%nat = 11 /\ field accessCount (heap s3) 1%nat = 0 /\
  remove "note.md" None s3 = (Returned tt, s4) /\
  retrieve "note.md" None s4 = (Thrown (Error "Memory file not found: note.md"), s4).
Proof. by vm_compute. Qed.

(** * Further properties *)

(** ** What [list] returns *)

Lemma list_step_members (idx : list (string * ref)) (r : ref) (entries : list Fs.Dirent) :
  forall acc : list ref,
  In r (fold_left (list_step idx) entries acc) <->
  In r acc \/ exists e, In e entries /\ visible e = true /\ Assoc.get (Fs.name e) idx = Some r.
Proof.
  induction entries as [|e entries IH]; intros acc; simpl.
  - split; [by left|]. intros [H|(e & [] & _)]; done.
  - rewrite IH. unfold list_step. fold (visible e). split.
    + intros [H|(e' & He' & Hv & Hg)]; [|right; exists e'; tauto].
      destruct (visible e) eqn:Hv; [|by left].
      destruct (Assoc.get (Fs.name e) idx) as [r'|] eqn:Hg; [|by left].
      apply in_app_or in H as [H|[<-|[]]]; [by left|].
      right. exists e. tauto.
    + intros [H|(e' & [<-|He'] & Hv & Hg)].
      * left. destruct (visible e); [|done].
        destruct (Assoc.get (Fs.name e) idx); [|done]. apply in_or_app. by left.
      * left. rewrite Hv, Hg. apply in_or_app. right. by left.
      * right. exists e'. tauto.
Qed.

Lemma list_contents (category : option string) (s : state) (r : ref) :
  exists files,
    list_ category s = (Returned files, s) /\
    (In r files <->
     exists entries e,
       Fs.readdir (searchPath s category) (disk s) = inr entries /\
       In e entries /\
       Fs.isFile e = true /\
       Js.startsWith "." (Fs.name e) = false /\
       Assoc.get (Fs.name e) (metadata s) = Some r).
Proof.
  rewrite list_eq. cbv zeta. fold (searchPath s category).
  unfold list_try, bind, fs_get, gets, ret. cbn [fs_readdir tree_fs].
  destruct (Fs.readdir _ _) as [code|entries]; simpl.
  - exists []. split; [done|]. split; [done|]. by intros (? & ? & ? & _).
  - eexists. split; [done|].
    rewrite (Permutation_in' eq_refl (sort_perm (field lastUpdated (heap s)) _)).
    rewrite list_step_members. split.
    + intros [[]|(e & He & Hv & Hg)]. exists entries, e.
      unfold visible in Hv. apply andb_prop in Hv as [Hf Hd].
      apply negb_true_iff in Hd. by split_and!.
    + intros (entries' & e & [= <-] & He & Hf & Hd & Hg). right. exists e.
      split_and!; try done. unfold visible. by rewrite Hf, Hd.
Qed.

(** [list] returns exactly the objects the index holds for the names of the
    files of the directory it reads that have no leading dot: directories,
    hidden files and files the index does not know are left out, and so is
    everything when the directory cannot be read. *)
Theorem list_members (category : option string) (s : state) (r : ref) :
  exists files,
    list_ category s = (Returned files, s) /\
    (In r files <->
     exists entries e,
       Fs.readdir (searchPath s category) (disk s) = inr entries /\
       In e entries /\
       Fs.isFile e = true /\
       Js.startsWith "." (Fs.name e) = false /\
       Assoc.get (Fs.name e) (metadata s) = Some r).
Proof. apply list_contents. Qed.

(** ** The most accessed *)

Lemma sorted_head_greatest {A : Type} (key : A -> Z) (l : list A) (top x : A) :
  Sorted (descending key) l -> head l = Some top -> In x l -> key x <= key top.
Proof.
  intros Hs Hhd Hin.
  apply Sorted_StronglySorted in Hs; [|intros a b c; unfold descending; lia].
  destruct l as [|y l]; [done|]. injection Hhd as ->.
  inversion_clear Hs as [|? ? _ Hall]. destruct Hin as [->|Hin]; [lia|].
  by apply (proj1 (List.Forall_forall _ _) Hall).
Qed.

(** [getStats] puts first in [mostAccessed] an object whose [accessCount] no
    object of the index exceeds; [mostAccessed] holds objects of the index
    only, as many as the index has, up to ten. *)
Theorem mostAccessed_leads (s : state) :
  exists st,
    getStats s = (Returned st, s) /\
    List.length (mostAccessed st) = Nat.min 10 (List.length (metadata s)) /\
    (forall r, In r (mostAccessed st) -> In r (Assoc.values (metadata s))) /\
    (forall top r,
       head (mostAccessed st) = Some top ->
       In r (Assoc.values (metadata s)) ->
       field accessCount (heap s) r <= field accessCount (heap s) top).
Proof.
  eexists. split; [reflexivity|].
  cbn [mostAccessed]. unfold Js.slice0.
  set (key := field accessCount (heap s)).
  pose proof (sort_perm key (Assoc.values (metadata s))) as Hperm.
  pose proof (sort_sorted key (Assoc.values (metadata s))) as Hsorted.
  split_and!.
  - rewrite length_firstn, (Permutation_length Hperm). unfold Assoc.values.
    by rewrite length_map.
  - intros r Hin. apply (Permutation_in _ Hperm).
    rewrite <- (firstn_skipn 10 (Js.sort _ _)). apply in_or_app. by left.
  - intros top r Hhd Hin.
    apply (sorted_head_greatest key _ top r Hsorted).
    + by destruct (Js.sort _ _).
    + by apply (Permutation_in _ (Permutation_sym Hperm)).
Qed.

(** ** More on the disk *)

Section MoreFsFacts.
Import Fs.
Implicit Types (p q : Path.t) (d : node) (c : string).


Lemma writable_dirname p : forall d,
  writable p d = true -> p <> [] -> exists es, lookup (Path.dirname p) d = inr (Dir es).
Proof.
  unfold Path.dirname.
  induction p as [|s p IH]; intros d H Hne; [done|].
  simpl in H. destruct d as [|es]; [done|].
  destruct p as [|t p]; [simpl; eauto|].
  change (removelast (s :: t :: p)) with (s :: removelast (t :: p)).
  simpl lookup at 1. destruct (Assoc.get s es) as [child|]; [|done].
  by apply IH.
Qed.

Lemma writeFile_dir p : forall c d, is_dir p d = true -> writeFile p c d = inl EISDIR.
Proof.
  unfold is_dir.
  induction p as [|s p IH]; intros c d H; simpl in *.
  - by destruct d.
  - destruct d as [|es]; [done|].
    destruct (Assoc.get s es) as [child|]; [|done]. by rewrite IH.
Qed.

Lemma unlink_dir p : forall d, is_dir p d = true -> unlink p d = inl EISDIR.
Proof.
  unfold is_dir.
  induction p as [|s p IH]; intros d H; simpl in *; [done|].
  destruct d as [|es]; [done|].
  destruct (Assoc.get s es) as [child|]; [|done].
  destruct p as [|t p]; [simpl in H; by destruct child|]. by rewrite IH.
Qed.

Lemma readFile_dir p d : is_dir p d = true -> readFile p d = inl EISDIR.
Proof. unfold is_dir, readFile. by destruct (lookup p d) as [|[]]. Qed.

Lemma mkdir_dirname_of_dir p d :
  is_dir p d = true -> mkdir (Path.dirname p) d = inr d.
Proof.
  unfold is_dir. intros H.
  destruct (lookup p d) as [|[|es]] eqn:Hl; try done.
  destruct p as [|s p].
  - simpl in Hl. injection Hl as ->. done.
  - destruct (lookup_dirname (s :: p) d _ Hl) as [es' Hdir]; [done|].
    by apply (mkdir_existing _ _ es').
Qed.

End MoreFsFacts.

(** ** A directory where a file is expected *)

(** When a directory is at root/category/name, [retrieve], [store], [update]
    and [remove] all throw the [EISDIR] error of the file system as it is
    and leave the state as it was. *)
Theorem directory_at_the_path
    (filename content : string) (category : option string) (s : state) :
  is_dir (path_of s filename category) (disk s) = true ->
  let e := ErrnoException Fs.EISDIR (path_of s filename category) in
  retrieve filename category s = (Thrown e, s) /\
  store filename content category s = (Thrown e, s) /\
  update filename content category s = (Thrown e, s) /\
  remove filename category s = (Thrown e, s).
Proof.
  intros Hdir e.
  assert (store filename content category s = (Thrown e, s)) as Hstore.
  { rewrite store_eq. cbv zeta.
    rewrite (mkdir_dirname_of_dir _ _ Hdir), (writeFile_dir _ content _ Hdir).
    by destruct s. }
  split_and!.
  - rewrite retrieve_eq. cbv zeta. by rewrite (readFile_dir _ _ Hdir).
  - done.
  - rewrite update_eq. cbv zeta. unfold Fs.access. unfold is_dir in Hdir.
    destruct (Fs.lookup _ _) as [|n]; [done|]. by rewrite Hstore.
  - rewrite remove_eq. cbv zeta. by rewrite (unlink_dir _ _ Hdir).
Qed.

Lemma directory_at_the_path_witness :
  let s := fresh ["tmp"; "neko"] 0 in
  let e := ErrnoException Fs.EISDIR ["tmp"; "neko"; "personalities"] in
  is_dir (path_of s "personalities" (Some ".")) (disk s) = true /\
  retrieve "personalities" (Some ".") s = (Thrown e, s) /\
  store "personalities" "x" (Some ".") s = (Thrown e, s) /\
  update "personalities" "x" (Some ".") s = (Thrown e, s) /\
  remove "personalities" (Some ".") s = (Thrown e, s).
Proof.
  intros s e.
  assert (is_dir (path_of s "personalities" (Some ".")) (disk s) = true) as H
    by reflexivity.
  split; [exact H|].
  exact (directory_at_the_path "personalities" "x" (Some ".") s H).
Defined.

(** ** What [store] does and leaves alone *)


(** [store] returns whenever the name is one segment that enters a
    directory, the path is within the limits of a disk, the file can be
    written where it goes (a file is there, or none is and its directory
    exists) and the index file can be written; the file, unless it is the
    index file, then reads as the text the bytes written stand for, which is
    the content when no surrogate of it is without its partner. *)
Theorem store_returns_when_writable
    (filename content : string) (category : option string) (s : state) :
  safe_segment filename ->
  within_limits (path_of s filename category) ->
  writable (path_of s filename category) (disk s) = true ->
  writable (metadataFile s) (disk s) = true ->
  exists s',
    store filename content category s = (Returned (List.length (heap s)), s') /\
    (path_of s filename category <> metadataFile s ->
     Fs.readFile (path_of s filename category) (disk s') = inr (Utf8.encode content) /\
     (Utf8.well_formed content = true ->
      Fs.readFile (path_of s filename category) (disk s') = inr content)).
Proof.
  intros _ _ Hp Hidx.
  assert (exists s', store filename content category s
                     = (Returned (List.length (heap s)), s')) as [s' Hstore].
  { rewrite store_eq. cbv zeta. set (p := path_of s filename category) in *.
    destruct (writable_nonempty_dir _ _ Hidx) as [es Hd].
    { rewrite metadataFile_eq. by destruct (memoryRoot s). }
    assert (p <> []) as Hne by (intros Hnil; rewrite Hnil, Hd in Hp; done).
    destruct (writable_dirname _ _ Hp Hne) as [es' Hdir].
    rewrite (mkdir_existing _ _ _ Hdir).
    destruct (writable_writeFile p content _ Hp) as [d2 Hw].
    rewrite Hw, (stat_size_file _ _ _ (writeFile_lookup _ _ _ _ Hw)).
    pose proof (writeFile_writable_other _ _ _ _ _ Hw Hidx) as Hidx2.
    match goal with |- context [Fs.writeFile (metadataFile s) ?j d2] =>
      destruct (writable_writeFile (metadataFile s) j _ Hidx2) as [d3 ->] end.
    eauto. }
  exists s'. split; [done|]. intros Hne.
  destruct (store_returned _ _ _ _ _ _ Hstore) as (d & _ & -> & _ & Hfile).
  assert (Fs.readFile (path_of s filename category) d = inr (Utf8.encode content)) as Hread
    by (apply readFile_lookup; by apply Hfile).
  simpl. split; [done|]. intros Hwf. by rewrite Hread, (encode_well_formed _ Hwf).
Qed.

Lemma store_returns_when_writable_witness :
  let s := fresh ["tmp"; "neko"] 0 in
  safe_segment "plan.md" /\
  within_limits (path_of s "plan.md" (Some "projects")) /\
  writable (path_of s "plan.md" (Some "projects")) (disk s) = true /\
  writable (metadataFile s) (disk s) = true /\
  exists s',
    store "plan.md" "draft" (Some "projects") s = (Returned 0%nat, s') /\
    (path_of s "plan.md" (Some "projects") <> metadataFile s ->
     Fs.readFile (path_of s "plan.md" (Some "projects")) (disk s') = inr (Utf8.encode "draft") /\
     (Utf8.well_formed "draft" = true ->
      Fs.readFile (path_of s "plan.md" (Some "projects")) (disk s') = inr "draft")).
Proof.
  intros s.
  assert (safe_segment "plan.md") as Hsafe by (by repeat split).
  assert (within_limits (path_of s "plan.md" (Some "projects"))) as Hlim.
  { split; [|vm_compute; lia]. vm_compute. repeat constructor; lia. }
  assert (writable (path_of s "plan.md" (Some "projects")) (disk s) = true) as Hp
    by reflexivity.
  assert (writable (metadataFile s) (disk s) = true) as Hidx by reflexivity.
  split; [exact Hsafe|]. split; [exact Hlim|]. split; [exact Hp|]. split; [exact Hidx|].
  exact (store_returns_when_writable "plan.md" "draft" (Some "projects") s Hsafe Hlim Hp Hidx).
Defined.



(** ** The index file follows the index *)

Lemma retrieve_root filename category s out s' :
  retrieve filename category s = (out, s') -> memoryRoot s' = memoryRoot s.
Proof.
  rewrite retrieve_eq. cbv zeta.
  destruct (Fs.readFile _ _) as [code|c]; [by intros [= _ <-]|].
  destruct (Assoc.get _ _) as [r|]; [|by intros [= _ <-]].
  assert (memoryRoot (snd (touch r s)) = memoryRoot s) as Ht.
  { unfold touch, bind, new_Date, gets, modify. simpl. by destruct (heap s !! r). }
  destruct (Fs.writeFile _ _ _) as [code|d]; by intros [= _ <-].
Qed.

Lemma store_mirrors filename content category s r s' :
  store filename content category s = (Returned r, s') ->
  Fs.readFile (metadataFile s) (disk s') = inr (stringify_index (index s')).
Proof.
  rewrite store_eq. cbv zeta.
  destruct (Fs.mkdir _ _) as [|d1]; [done|].
  destruct (Fs.writeFile _ content d1) as [|d2]; [done|].
  destruct (Fs.stat_size _ d2) as [|sz]; [done|].
  destruct (Fs.writeFile (metadataFile s) _ d2) as [|d3] eqn:Hsave; [done|].
  intros [= _ <-]. simpl. apply readFile_lookup.
  rewrite <- encode_stringify_index. apply (writeFile_lookup _ _ _ _ Hsave).
Qed.

Lemma update_returned filename content category s r s' :
  update filename content category s = (Returned r, s') ->
  store filename content category s = (Returned r, s').
Proof.
  rewrite update_eq. cbv zeta.
  destruct (Fs.access _ _) as [code|[]]; [done|].
  by destruct (store filename content category s) as [[r0|e] s0].
Qed.

(** Every operation that changes the index and returns has written the
    index through: when [store], [update], [append] or [remove] has
    returned, or [retrieve] of a name the index knows, the index file holds
    the text of the index in memory. *)
Theorem index_file_follows_index
    (filename content : string) (category : option string) (s s' : state) :
  (forall r, store filename content category s = (Returned r, s') ->
     Fs.readFile (metadataFile s) (disk s') = inr (stringify_index (index s'))) /\
  (forall r, update filename content category s = (Returned r, s') ->
     Fs.readFile (metadataFile s) (disk s') = inr (stringify_index (index s'))) /\
  (forall r, append filename content category s = (Returned r, s') ->
     Fs.readFile (metadataFile s) (disk s') = inr (stringify_index (index s'))) /\
  (remove filename category s = (Returned tt, s') ->
     Fs.readFile (metadataFile s) (disk s') = inr (stringify_index (index s'))) /\
  (forall got r, retrieve filename category s = (Returned got, s') ->
     Assoc.get filename (metadata s) = Some r ->
     Fs.readFile (metadataFile s) (disk s') = inr (stringify_index (index s'))).
Proof.
  split_and!.
  - intros r. apply store_mirrors.
  - intros r H. by apply (store_mirrors _ _ _ _ _ _ (update_returned _ _ _ _ _ _ H)).
  - intros r. rewrite append_eq.
    destruct (retrieve filename category s) as [[got|e] sa] eqn:Hret; [|done].
    intros H. rewrite <- (metadataFile_root _ _ (retrieve_root _ _ _ _ _ Hret)).
    by apply (store_mirrors _ _ _ _ _ _ (update_returned _ _ _ _ _ _ H)).
  - rewrite remove_eq. cbv zeta.
    destruct (Fs.unlink _ _) as [|d1]; [done|].
    destruct (Fs.writeFile (metadataFile s) _ d1) as [|d2] eqn:Hsave; [done|].
    intros [= <-]. simpl. apply readFile_lookup.
    rewrite <- encode_stringify_index. apply (writeFile_lookup _ _ _ _ Hsave).
  - intros got r. rewrite retrieve_eq. cbv zeta.
    destruct (Fs.readFile _ _) as [|c]; [done|]. intros H Hget. rewrite Hget in H.
    destruct (Fs.writeFile (metadataFile s) _ (disk s)) as [|d] eqn:Hsave; [done|].
    injection H as _ <-. simpl. apply readFile_lookup.
    rewrite <- encode_stringify_index. apply (writeFile_lookup _ _ _ _ Hsave).
Qed.

Lemma index_file_follows_index_witness :
  let s := snd (store "a.md" "one" None (fresh ["tmp"; "neko"] 0)) in
  let s' := snd (append "a.md" "two" None s) in
  append "a.md" "two" None s = (Returned 1%nat, s') /\
  Fs.readFile (metadataFile s) (disk s') = inr (stringify_index (index s')).
Proof.
  intros s s'.
  assert (append "a.md" "two" None s = (Returned 1%nat, s')) as H by (by vm_compute).
  split; [exact H|].
  exact (proj1 (proj2 (proj2 (index_file_follows_index "a.md" "two" None s s'))) _ H).
Defined.

(** ** One record for a name, whatever the category *)

(** The index knows names, not paths: after [store] of a name in one
    category, [retrieve] of the same name in another category, where a file
    of that name is, returns the content of that file with the object made
    for the first, and counts the read on it. *)
Theorem one_record_per_name
    (filename c1 c2 : string) (catA catB : option string) (s s1 : state) (r : ref) :
  store filename c1 catA s = (Returned r, s1) ->
  path_of s filename catB <> metadataFile s ->
  Fs.readFile (path_of s filename catB) (disk s1) = inr c2 ->
  exists s2 m,
    retrieve filename catB s1 = (Returned {| content := c2; metadata_of := r |}, s2) /\
    heap s2 !! r = Some m /\
    filePath m = Path.relative (memoryRoot s) (path_of s filename catA) /\
    contentHash m = Sha256.hex c1 /\
    accessCount m = 1.
Proof.
  intros Hstore HneB Hread.
  destruct (store_returned _ _ _ _ _ _ Hstore) as (d & Hr & Hs1 & Hidx & _).
  assert (memoryRoot s1 = memoryRoot s) as Hroot by (by rewrite Hs1).
  apply readFile_lookup in Hread.
  edestruct (retrieve_tracked filename catB s1 c2 r) as (d' & Hret & _).
  - by rewrite (path_of_root _ _ _ _ Hroot).
  - by rewrite (path_of_root _ _ _ _ Hroot), (metadataFile_root _ _ Hroot).
  - rewrite (metadataFile_root _ _ Hroot). by rewrite Hs1.
  - rewrite Hs1. apply get_set_eq.
  - rewrite Hs1, Hr. by apply list_lookup_middle.
  - eexists _, _. split; [exact Hret|]. simpl. split.
    + apply list_lookup_insert_eq. rewrite Hs1. simpl. rewrite length_app, Hr. simpl. lia.
    + done.
Qed.

Lemma one_record_per_name_witness :
  let s := snd (store "a.md" "first" (Some "projects") (fresh ["tmp"; "neko"] 0)) in
  let s1 := snd (store "a.md" "second" (Some "system") s) in
  store "a.md" "second" (Some "system") s = (Returned 1%nat, s1) /\
  path_of s "a.md" (Some "projects") <> metadataFile s /\
  Fs.readFile (path_of s "a.md" (Some "projects")) (disk s1) = inr "first" /\
  exists s2 m,
    retrieve "a.md" (Some "projects") s1
      = (Returned {| content := "first"; metadata_of := 1%nat |}, s2) /\
    heap s2 !! 1%nat = Some m /\
    filePath m = Path.relative (memoryRoot s) (path_of s "a.md" (Some "system")) /\
    contentHash m = Sha256.hex "second" /\
    accessCount m = 1.
Proof.
  intros s s1.
  assert (store "a.md" "second" (Some "system") s = (Returned 1%nat, s1)) as H1
    by (by vm_compute).
  assert (path_of s "a.md" (Some "projects") <> metadataFile s) as H3 by (by vm_compute).
  assert (Fs.readFile (path_of s "a.md" (Some "projects")) (disk s1) = inr "first") as H4
    by (by vm_compute).
  split; [exact H1|]. split; [exact H3|]. split; [exact H4|].
  exact (one_record_per_name _ _ _ _ _ _ _ _ H1 H3 H4).
Defined.

(** ** What is stored in a category is listed in it *)









(** ** [remove] *)



Section UnlinkFacts.
Import Fs.
Implicit Types (p q : Path.t) (d : node) (c : string).






End UnlinkFacts.



(** ** Counts of reads *)

Lemma store_heap filename content category s :
  heap (snd (store filename content category s)) = heap s \/
  exists m, accessCount m = 0 /\
            heap (snd (store filename content category s)) = heap s ++ [m].
Proof.
  rewrite store_eq. cbv zeta.
  destruct (Fs.mkdir _ _) as [|d1]; [by left|].
  destruct (Fs.writeFile _ content d1) as [|d2]; [by left|].
  destruct (Fs.stat_size _ d2) as [|sz]; [by left|].
  destruct (Fs.writeFile (metadataFile s) _ d2) as [|d3];
    right; eexists; (split; [|reflexivity]); reflexivity.
Qed.

Lemma store_counts filename content category s :
  counts_ok (heap s) -> counts_ok (heap (snd (store filename content category s))).
Proof.
  unfold counts_ok. intros H.
  destruct (store_heap filename content category s) as [->|(m & Hm & ->)]; [done|].
  apply Forall_app. split; [done|]. constructor; [lia|constructor].
Qed.

Lemma retrieve_counts filename category s :
  counts_ok (heap s) -> counts_ok (heap (snd (retrieve filename category s))).
Proof.
  unfold counts_ok. intros H. rewrite retrieve_eq. cbv zeta.
  destruct (Fs.readFile _ _) as [|c]; [done|].
  destruct (Assoc.get _ _) as [r|].
  - assert (Forall (fun m => 0 <= accessCount m) (heap (snd (touch r s)))) as Ht.
    { unfold touch, bind, new_Date, gets, modify. simpl.
      destruct (heap s !! r) as [m|] eqn:Hr; [|done]. simpl.
      apply Forall_insert; [done|]. simpl.
      pose proof (Forall_lookup_1 _ _ _ _ H Hr) as Hm. simpl in Hm. lia. }
    by destruct (Fs.writeFile _ _ _).
  - simpl. apply Forall_app. split; [done|]. constructor; [simpl; lia|constructor].
Qed.

Lemma update_counts filename content category s :
  counts_ok (heap s) -> counts_ok (heap (snd (update filename content category s))).
Proof.
  intros H. rewrite update_eq. cbv zeta.
  destruct (Fs.access _ _) as [|[]]; [done|].
  pose proof (store_counts filename content category s H) as Hs.
  by destruct (store filename content category s) as [[r|e] s'].
Qed.

(** No operation makes a count of reads negative: when every object of the
    heap has an [accessCount] of 0 or more, so has every object of the heap
    that [store], [retrieve], [update], [append], [remove], [list] or
    [getStats] leaves, whether the operation returns or throws. *)
Theorem counts_stay_non_negative
    (filename content : string) (category : option string) (s : state) :
  counts_ok (heap s) ->
  counts_ok (heap (snd (store filename content category s))) /\
  counts_ok (heap (snd (retrieve filename category s))) /\
  counts_ok (heap (snd (update filename content category s))) /\
  counts_ok (heap (snd (append filename content category s))) /\
  counts_ok (heap (snd (remove filename category s))) /\
  counts_ok (heap (snd (list_ category s))) /\
  counts_ok (heap (snd (getStats s))).
Proof.
  intros H. split_and!.
  - by apply store_counts.
  - by apply retrieve_counts.
  - by apply update_counts.
  - rewrite append_eq.
    pose proof (retrieve_counts filename category s H) as Hr.
    destruct (retrieve filename category s) as [[got|e] sa]; [|done].
    by apply update_counts.
  - rewrite remove_eq. cbv zeta.
    destruct (Fs.unlink _ _) as [|d1]; [done|].
    by destruct (Fs.writeFile _ _ _).
  - by destruct (list_sorted category s) as (files & -> & _).
  - done.
Qed.

Lemma counts_stay_non_negative_witness :
  let s := snd (store "a.md" "one" None (fresh ["tmp"; "neko"] 0)) in
  counts_ok (heap s) /\
  counts_ok (heap (snd (append "a.md" "two" None s))).
Proof.
  intros s.
  assert (counts_ok (heap s)) as H.
  { vm_compute. constructor; [|constructor]. vm_compute. discriminate. }
  split; [exact H|].
  exact (proj1 (proj2 (proj2 (proj2 (counts_stay_non_negative "a.md" "two" None s H))))).
Defined.

(** ** Making and removing directories *)

Lemma set_set {V : Type} (k : string) (v v' : V) (m : list (string * V)) :
  Assoc.set k v (Assoc.set k v' m) = Assoc.set k v m.
Proof.
  induction m as [|[k0 v0] m IH]; simpl.
  - by rewrite String.eqb_refl.
  - destruct (String.eqb_spec k k0) as [->|Hne]; simpl.
    + by rewrite String.eqb_refl.
    + destruct (String.eqb_spec k k0); [done|]. by rewrite IH.
Qed.

Lemma delete_set {V : Type} (k : string) (v : V) (m : list (string * V)) :
  Assoc.delete k (Assoc.set k v m) = Assoc.delete k m.
Proof.
  induction m as [|[k0 v0] m IH]; simpl.
  - by rewrite String.eqb_refl.
  - destruct (String.eqb_spec k k0) as [->|Hne]; simpl.
    + by rewrite String.eqb_refl.
    + destruct (String.eqb_spec k k0); [done|]. by rewrite IH.
Qed.

Lemma delete_absent {V : Type} (k : string) (m : list (string * V)) :
  Assoc.get k m = None -> Assoc.delete k m = m.
Proof.
  induction m as [|[k0 v0] m IH]; simpl; [done|].
  destruct (String.eqb_spec k k0); [done|]. intros H. by rewrite IH.
Qed.

Section DirFacts.
Import Fs.
Implicit Types (p q r : Path.t) (d n : node).

Lemma lookup_cons s p es :
  lookup (s :: p) (Dir es)
  = match Assoc.get s es with Some child => lookup p child | None => inl ENOENT end.
Proof. reflexivity. Qed.

Lemma mkdir_cons s p es :
  mkdir (s :: p) (Dir es)
  = match mkdir p (default (Dir []) (Assoc.get s es)) with
    | inl e => inl e
    | inr child' => inr (Dir (Assoc.set s child' es))
    end.
Proof. reflexivity. Qed.

Lemma lookup_app r : forall q d n,
  lookup r d = inr n -> lookup (r ++ q) d = lookup q n.
Proof.
  induction r as [|s r IH]; intros q d n H; simpl in *; [congruence|].
  destruct d as [|es]; [done|]. destruct (Assoc.get s es); [eauto|done].
Qed.



(** [mkdir] below a path that exists works in what is there. *)
Lemma mkdir_below r : forall q d n n',
  lookup r d = inr n -> mkdir q n = inr n' ->
  exists d', mkdir (r ++ q) d = inr d' /\ lookup r d' = inr n'.
Proof.
  induction r as [|s r IH]; intros q d n n' Hl Hm; simpl in *.
  - injection Hl as ->. eauto.
  - destruct d as [|es]; [done|].
    destruct (Assoc.get s es) as [child|] eqn:Hs; [|done]. simpl.
    destruct (IH _ _ _ _ Hl Hm) as (child' & -> & Hl').
    eexists. split; [done|]. simpl. by rewrite get_set_eq.
Qed.

Lemma rm_below r : forall q d d',
  r <> [] -> is_dir r d = true -> mkdir (r ++ q) d = inr d' -> rm r d' = rm r d.
Proof.
  unfold is_dir.
  induction r as [|s r IH]; intros q d d' Hne Hd Hm; [done|]. simpl in *.
  destruct d as [|es]; [done|].
  destruct (Assoc.get s es) as [child|] eqn:Hs; [|done]. simpl in Hm.
  destruct (mkdir (r ++ q) child) as [|child'] eqn:Hc; [done|]. injection Hm as <-.
  rewrite get_set_eq. destruct r as [|t r].
  - by rewrite delete_set.
  - rewrite (IH _ _ _ ltac:(done) Hd Hc).
    destruct (rm (t :: r) child); [done|]. by rewrite set_set.
Qed.

Lemma rm_gone p : forall d d0,
  rm p d = inr d0 -> unique_path p d = true -> absent p d0.
Proof.
  unfold absent.
  induction p as [|s p IH]; intros d d0 Hr Hq; [done|]. simpl in *.
  destruct d as [|es]; [done|].
  destruct (Assoc.get s (Assoc.delete s es)) eqn:Hdel; [done|].
  destruct (Assoc.get s es) as [child|] eqn:Hs.
  - destruct p as [|t p].
    + injection Hr as <-. simpl. by rewrite Hdel.
    + destruct (rm (t :: p) child) as [|child0] eqn:Hc; [done|].
      injection Hr as <-. simpl lookup at 1. rewrite get_set_eq. eauto.
  - injection Hr as <-. simpl. by rewrite Hs.
Qed.

(** A directory made where nothing was is empty, and removing it and making
    it again gives the same disk. *)
Lemma mkdir_absent p : forall d0 d1,
  p <> [] -> absent p d0 -> mkdir p d0 = inr d1 ->
  lookup p d1 = inr (Dir []) /\
  exists d0', rm p d1 = inr d0' /\ absent p d0' /\ mkdir p d0' = inr d1.
Proof.
  unfold absent.
  induction p as [|s p IH]; intros d0 d1 Hne Ha Hm; [done|]. simpl in Ha, Hm.
  destruct d0 as [|es]; [done|].
  destruct (mkdir p _) as [|c1] eqn:Hc; [done|]. injection Hm as <-.
  simpl lookup at 1. simpl rm. rewrite !get_set_eq.
  destruct p as [|t p].
  - destruct (Assoc.get s es) as [child|] eqn:Hs; [done|].
    simpl in Hc. injection Hc as <-. split; [done|].
    rewrite delete_set, (delete_absent _ _ Hs). eexists. split; [done|].
    simpl. by rewrite Hs.
  - assert (absent (t :: p) (default (Dir []) (Assoc.get s es))) as Ha'.
    { unfold absent. by destruct (Assoc.get s es). }
    destruct (IH _ _ ltac:(done) Ha' Hc) as (Hl & c0' & Hrm & Hgone & Hmk).
    split; [done|]. rewrite Hrm. eexists. split; [done|].
    rewrite set_set, lookup_cons, mkdir_cons, !get_set_eq. simpl default.
    rewrite Hmk, set_set. by split.
Qed.



End DirFacts.

(** ** Sessions *)

Lemma join_one (root : Path.t) (c : string) :
  safe_segment c -> Path.join root [c] = root ++ [c].
Proof.
  intros (Hseg & H1 & H2 & H3). unfold Path.join. simpl concat.
  rewrite Hseg. simpl. unfold Path.enter.
  apply String.eqb_neq in H1, H2, H3. by rewrite H1, H2, H3.
Qed.

Lemma new_Map_spec (entries : list (string * FileMetadata)) : forall s : state,
  exists s',
    new_Map entries s = (Returned tt, s') /\
    memoryRoot s' = memoryRoot s /\
    disk s' = disk s /\
    clock s' = clock s /\
    heap s' = heap s ++ map snd entries /\
    (forall k, ~ In k (map fst entries) ->
       Assoc.get k (metadata s') = Assoc.get k (metadata s)) /\
    (forall k, Assoc.get k (metadata s') <> None ->
       In k (map fst entries) \/ Assoc.get k (metadata s) <> None) /\
    (unique_keys entries ->
     forall k m, In (k, m) entries ->
       exists r, Assoc.get k (metadata s') = Some r /\ heap s' !! r = Some m).
Proof.
  induction entries as [|[key value] rest IH]; intros s.
  - exists s. split_and!; try done; try (by rewrite app_nil_r);
      try (intros k Hk; by right); try (by intros _ k m []).
  - simpl new_Map. unfold bind at 1, alloc. unfold bind at 1, Map_set, modify.
    match goal with |- context [new_Map rest ?s1] =>
      destruct (IH s1) as (s' & Hrun & Hroot & Hdisk & Hclock & Hheap & Hold & Hdom & Hnew)
    end.
    simpl in Hroot, Hdisk, Hclock, Hheap, Hold, Hdom.
    exists s'. split_and!; try done.
    + rewrite Hheap, <- app_assoc. done.
    + intros k Hk. simpl in Hk. rewrite Hold by tauto.
      apply get_set_ne. tauto.
    + intros k Hk. destruct (Hdom k Hk) as [Hin|Hget]; [left; by right|].
      destruct (String.eqb_spec key k) as [->|Hne]; [left; by left|].
      right. by rewrite get_set_ne in Hget.
    + intros Huniq k m Hin. unfold unique_keys in Huniq. simpl in Huniq.
      apply NoDup_cons in Huniq as [Hnot Huniq].
      destruct Hin as [[= <- <-]|Hin].
      * exists (List.length (heap s)). split.
        -- rewrite Hold; [apply get_set_eq|]. intros Hk. apply Hnot.
           by apply list_elem_of_In.
        -- rewrite Hheap, <- app_assoc. by apply list_lookup_middle.
      * by apply Hnew.
Qed.

Lemma loadMetadata_eq (parse : string -> option (list (string * FileMetadata))) (s : state) :
  loadMetadata parse s =
  (Returned tt,
   match Fs.readFile (metadataFile s) (disk s) with
   | inr data =>
       match parse data with
       | Some entries => snd (new_Map entries (with_metadata [] s))
       | None => with_metadata [] s
       end
   | inl _ => with_metadata [] s
   end).
Proof.
  unfold loadMetadata, try_catch, bind, gets, fs_get, modify, throw. simpl.
  destruct (Fs.readFile _ _) as [|data]; [done|]. simpl.
  destruct (parse data) as [entries|]; [|done].
  by destruct (new_Map_spec entries (with_metadata [] s)) as (s' & -> & _).
Qed.

Lemma initialize_eq (parse : string -> option (list (string * FileMetadata))) (s : state) :
  initialize parse s =
  let root := memoryRoot s in
  match Fs.mkdir root (disk s) with
  | inl code => (Thrown (ErrnoException code root), s)
  | inr d1 =>
      match Fs.mkdir (root ++ ["system"]) d1 with
      | inl code => (Thrown (ErrnoException code (root ++ ["system"])), with_disk d1 s)
      | inr d2 =>
          match Fs.mkdir (root ++ ["personalities"]) d2 with
          | inl code =>
              (Thrown (ErrnoException code (root ++ ["personalities"])), with_disk d2 s)
          | inr d3 =>
              match Fs.mkdir (root ++ ["projects"]) d3 with
              | inl code =>
                  (Thrown (ErrnoException code (root ++ ["projects"])), with_disk d3 s)
              | inr d4 => loadMetadata parse (with_disk d4 s)
              end
          end
      end
  end.
Proof.
  unfold initialize, try_catch, bind, gets, fs_put, throw. simpl.
  change (Path.join (memoryRoot s) ["system"]) with (memoryRoot s ++ ["system"]).
  change (Path.join (memoryRoot s) ["personalities"]) with (memoryRoot s ++ ["personalities"]).
  change (Path.join (memoryRoot s) ["projects"]) with (memoryRoot s ++ ["projects"]).
  destruct (Fs.mkdir _ (disk s)) as [|d1]; [done|]. simpl.
  destruct (Fs.mkdir _ d1) as [|d2]; [done|]. simpl.
  destruct (Fs.mkdir _ d2) as [|d3]; [done|]. simpl.
  destruct (Fs.mkdir _ d3) as [|d4]; [done|]. simpl.
  by rewrite !loadMetadata_eq.
Qed.

Lemma clear_eq (parse : string -> option (list (string * FileMetadata))) (s : state) :
  clear parse s =
  match Fs.rm (memoryRoot s) (disk s) with
  | inl code => (Thrown (ErrnoException code (memoryRoot s)), s)
  | inr d0 => initialize parse (with_disk d0 s)
  end.
Proof.
  unfold clear, try_catch, bind, gets, fs_put, throw. simpl.
  destruct (Fs.rm _ _) as [|d0]; [done|]. simpl.
  by destruct (initialize parse (with_disk d0 s)) as [[[]|e] s'].
Qed.






(** Where [clear] has left the disk: the root made anew with its three
    directories, and what removing the root and making it again gives
    back. *)
Lemma clear_disk (parse : string -> option (list (string * FileMetadata))) (s s' : state) :
  unique_path (memoryRoot s) (disk s) = true ->
  clear parse s = (Returned tt, s') ->
  s' = {| memoryRoot := memoryRoot s; metadata := []; heap := heap s;
          disk := disk s'; clock := clock s |} /\
  Fs.lookup (memoryRoot s) (disk s') = inr (Fs.Dir category_dirs) /\
  clear parse s' = (Returned tt, s').
Proof.
  intros Huniq. rewrite clear_eq.
  destruct (Fs.rm _ _) as [|d0] eqn:Hrm; [done|].
  assert (memoryRoot s <> []) as Hne.
  { intros Hnil. rewrite Hnil in Hrm. done. }
  pose proof (rm_gone _ _ _ Hrm Huniq) as Hgone.
  rewrite initialize_eq. cbv zeta. simpl memoryRoot. simpl disk.
  set (root := memoryRoot s) in *.
  destruct (Fs.mkdir root d0) as [|d1] eqn:H1; [done|].
  destruct (mkdir_absent _ _ _ Hne Hgone H1) as (Hl1 & d0' & Hrm1 & Hgone' & Hmk').
  destruct (mkdir_below root ["system"] d1 _ _ Hl1 eq_refl) as (d2 & H2 & Hl2).
  destruct (mkdir_below root ["personalities"] d2 _ _ Hl2 eq_refl) as (d3 & H3 & Hl3).
  destruct (mkdir_below root ["projects"] d3 _ _ Hl3 eq_refl) as (d4 & H4 & Hl4).
  rewrite H2, H3, H4, loadMetadata_eq.
  assert (Fs.readFile (metadataFile (with_disk d4 (with_disk d0 s))) d4 = inl Fs.ENOENT)
    as Hidx.
  { unfold Fs.readFile. rewrite metadataFile_eq. simpl memoryRoot. fold root.
    by rewrite (lookup_app root _ _ _ Hl4). }
  simpl disk at 1. rewrite Hidx. intros [= <-]. simpl. split_and!; try done.
  rewrite clear_eq. simpl memoryRoot. simpl disk. fold root.
  assert (is_dir root d1 = true) as Hd1 by (unfold is_dir; by rewrite Hl1).
  assert (is_dir root d2 = true) as Hd2 by (unfold is_dir; by rewrite Hl2).
  assert (is_dir root d3 = true) as Hd3 by (unfold is_dir; by rewrite Hl3).
  rewrite (rm_below _ _ _ _ Hne Hd3 H4), (rm_below _ _ _ _ Hne Hd2 H3),
    (rm_below _ _ _ _ Hne Hd1 H2), Hrm1.
  rewrite initialize_eq. cbv zeta. simpl memoryRoot. simpl disk. fold root.
  rewrite Hmk', H2, H3, H4, loadMetadata_eq. simpl disk at 1.
  change (metadataFile _) with (metadataFile (with_disk d4 (with_disk d0 s))).
  by rewrite Hidx.
Qed.

(** When [clear] has returned, in a disk whose directories on the way to
    the root list the next name once: the index is empty and no object has
    changed; the root holds its three directories, empty, and nothing else;
    [list] returns the empty sequence for every category and [getStats]
    counts no file; and [clear] again returns and leaves the very same
    state. *)
Theorem clear_resets_and_repeats
    (parse : string -> option (list (string * FileMetadata))) (s s' : state) :
  unique_path (memoryRoot s) (disk s) = true ->
  clear parse s = (Returned tt, s') ->
  metadata s' = [] /\
  heap s' = heap s /\
  Fs.lookup (memoryRoot s) (disk s') = inr (Fs.Dir category_dirs) /\
  (forall category, list_ category s' = (Returned [], s')) /\
  (exists st, getStats s' = (Returned st, s') /\
              totalFiles st = 0%nat /\ totalSize st = 0 /\ mostAccessed st = []) /\
  clear parse s' = (Returned tt, s').
Proof.
  intros Huniq Hclear.
  destruct (clear_disk parse s s' Huniq Hclear) as (Hs' & Hroot & Hagain).
  assert (metadata s' = []) as Hmeta by (by rewrite Hs').
  split_and!; try done.
  - by rewrite Hs'.
  - intros category.
    destruct (list_sorted category s') as (files & Hlist & _). rewrite Hlist.
    destruct files as [|r files]; [done|].
    destruct (list_contents category s' r) as (files' & Hlist' & Hmem).
    rewrite Hlist in Hlist'. injection Hlist' as <-.
    destruct (proj1 Hmem ltac:(by left)) as (entries & e & _ & _ & _ & _ & Hget).
    by rewrite Hmeta in Hget.
  - unfold getStats, bind, gets, ret. rewrite Hmeta. eexists. by split.
Qed.

Lemma clear_resets_and_repeats_witness :
  let parse := fun _ : string => @None (list (string * FileMetadata)) in
  let s := snd (store "a.md" "one" None (fresh ["tmp"; "neko"] 0)) in
  let s' := snd (clear parse s) in
  unique_path (memoryRoot s) (disk s) = true /\
  clear parse s = (Returned tt, s') /\
  metadata s' = [] /\
  clear parse s' = (Returned tt, s').
Proof.
  intros parse s s'.
  assert (unique_path (memoryRoot s) (disk s) = true) as H1 by (by vm_compute).
  assert (clear parse s = (Returned tt, s')) as H2 by (by vm_compute).
  destruct (clear_resets_and_repeats parse s s' H1 H2) as (Hm & _ & _ & _ & _ & Hagain).
  by split_and!.
Defined.

(** ** [store] makes the directories it needs *)

Section MkdirFacts.
Import Fs.
Implicit Types (p q i : Path.t) (d n : node).





End MkdirFacts.



(** ** Order of a listing, counted reads, safe names *)

(** [list] never throws and changes nothing; what it returns descends by
    [lastUpdated], so that no object listed was touched later than the
    first. *)
Theorem list_is_sorted (category : option string) (s : state) :
  exists files,
    list_ category s = (Returned files, s) /\
    Sorted (descending (field lastUpdated (heap s))) files /\
    (forall top r, head files = Some top -> In r files ->
       field lastUpdated (heap s) r <= field lastUpdated (heap s) top).
Proof.
  destruct (list_sorted category s) as (files & Hlist & Hsorted).
  exists files. split_and!; try done.
  intros top r. by apply sorted_head_greatest.
Qed.

(** After a [store] that returned, of a file other than the index file,
    [n] consecutive calls of [retrieve] all return the text the bytes
    written stand for (the content stored, when no surrogate of it is
    without its partner) with the one object [store] returned, which the
    index still holds, and its [accessCount] is then [n]. *)
Theorem reads_are_counted
    (filename content : string) (category : option string) (s s1 : state) (r : ref) (n : nat) :
  path_of s filename category <> metadataFile s ->
  store filename content category s = (Returned r, s1) ->
  exists s' m,
    times n (retrieve filename category) s1
      = (Returned (repeat {| content := Utf8.encode content; metadata_of := r |} n), s') /\
    (Utf8.well_formed content = true ->
     times n (retrieve filename category) s1
       = (Returned (repeat {| content := content; metadata_of := r |} n), s')) /\
    Assoc.get filename (metadata s') = Some r /\
    heap s' !! r = Some m /\
    accessCount m = Z.of_nat n.
Proof.
  intros Hne Hstore.
  destruct (store_then_retrieve_times _ _ _ _ _ _ n Hne Hstore) as (s' & m & H1 & H2).
  exists s', m. split; [done|]. split; [|done].
  intros Hwf. by rewrite H1, (encode_well_formed _ Hwf).
Qed.

Lemma reads_are_counted_witness :
  let s := fresh ["tmp"; "neko"] 0 in
  let s1 := snd (store "a.md" "one" None s) in
  path_of s "a.md" None <> metadataFile s /\
  store "a.md" "one" None s = (Returned 0%nat, s1) /\
  Utf8.well_formed "one" = true /\
  exists s' m,
    times 5 (retrieve "a.md" None) s1
      = (Returned (repeat {| content := "one"; metadata_of := 0%nat |} 5), s') /\
    Assoc.get "a.md" (metadata s') = Some 0%nat /\
    heap s' !! 0%nat = Some m /\
    accessCount m = 5.
Proof.
  intros s s1.
  assert (path_of s "a.md" None <> metadataFile s) as H1 by (by vm_compute).
  assert (store "a.md" "one" None s = (Returned 0%nat, s1)) as H2 by (by vm_compute).
  assert (Utf8.well_formed "one" = true) as H3 by reflexivity.
  split; [exact H1|]. split; [exact H2|]. split; [exact H3|].
  destruct (reads_are_counted "a.md" "one" None s s1 0%nat 5 H1 H2)
    as (s' & m & _ & Hrun & Hrest).
  exists s', m. split; [exact (Hrun H3)|exact Hrest].
Defined.

(** A name of one segment under a category of proper segments leads to the
    file the two spell below the root, which is never the index file. *)
Theorem safe_names_miss_the_index
    (s : state) (filename : string) (category : option string) :
  safe_segment filename ->
  Forall (fun seg => seg <> "" /\ seg <> "." /\ seg <> "..")
         (Path.segments (or_system category)) ->
  path_of s filename category
    = memoryRoot s ++ Path.segments (or_system category) ++ [filename] /\
  path_of s filename category <> metadataFile s.
Proof. apply safe_path_not_index. Qed.

Lemma safe_names_miss_the_index_witness :
  let s := fresh ["tmp"; "neko"] 0 in
  safe_segment ".metadata.json" /\
  Forall (fun seg => seg <> "" /\ seg <> "." /\ seg <> "..")
         (Path.segments (or_system (Some "personalities/technical"))) /\
  path_of s ".metadata.json" (Some "personalities/technical") <> metadataFile s.
Proof.
  intros s.
  assert (safe_segment ".metadata.json") as H1 by (by repeat split).
  assert (Forall (fun seg => seg <> "" /\ seg <> "." /\ seg <> "..")
            (Path.segments (or_system (Some "personalities/technical")))) as H2.
  { vm_compute. repeat constructor; discriminate. }
  split; [exact H1|]. split; [exact H2|].
  exact (proj2 (safe_names_miss_the_index s ".metadata.json"
                  (Some "personalities/technical") H1 H2)).
Defined.
(** * Failures of the file system *)

Section Failures.
Context {fs : FsPromises}.
Implicit Types (filename content : string) (category : option string) (s : state).







Section SessionFailures.
Variable parse : string -> option (list (string * FileMetadata)).





End SessionFailures.
End Failures.




(** C7 as the spec has it fails for [initialize] too: where a directory is
    in the place of the index file, reading it fails with [EISDIR], and
    [initialize] returns with an empty index instead of throwing. *)
Lemma loadMetadata_swallows_the_failure :
  let s := snd (store "a.md" "x" (Some ".metadata.json") (fresh ["tmp"; "neko"] 0)) in
  Fs.readFile (metadataFile s) (disk s) = inl Fs.EISDIR /\
  fst (initialize (fun _ => None) s) = Returned tt /\
  metadata (snd (initialize (fun _ => None) s)) = [].
Proof. by vm_compute. Qed.

(** An error of the index file with the code [ENOENT] does not reach the
    caller as it is: on a backend made for [/tmp/neko], which does not
    exist, beside an existing file [/tmp/x.md] which a failed [store] has
    put into the index, [retrieve] reads the file, fails to write the index
    file, and reports the file it has read as not found. *)
Lemma index_failure_reported_as_missing_file :
  let disk0 := Fs.Dir [("tmp", Fs.Dir [("x.md", Fs.File "old")])] in
  let s := snd (store "x.md" "new" (Some "..") (construct ["tmp"; "neko"] [] disk0 0)) in
  Fs.readFile (path_of s "x.md" (Some "..")) (disk s) = inr "new" /\
  Assoc.get "x.md" (metadata s) = Some 0%nat /\
  Fs.writeFile (metadataFile s) "" (disk s) = inl Fs.ENOENT /\
  fst (retrieve "x.md" (Some "..") s) = Thrown (Error "Memory file not found: x.md").
Proof. by vm_compute. Qed.
